(** * Kubernetes workloads dashboard: view-model derivation

    A shallow embedding of the view-model code of the workloads panel:
    [DeploymentsTable] (WebUI/WorkLoads/DeploymentsTable.tsx) and
    [WorkloadsPivot] (the top-level workloads container), with the
    properties of the association between deployments and replica sets,
    of the row fields, of the type filter and of the zero-data state. *)

From Stdlib Require Import ZArith List String Ascii Bool Lia.
From Stdlib Require Import Sorted Permutation DecimalString.
Import ListNotations.

Local Open Scope Z_scope.
Local Open Scope string_scope.

(* ================================================================== *)
(** ** The JavaScript primitives the components rely on *)
(* ================================================================== *)

Module JS.

(** The value of a chain of [&&] whose last operand is a comparison:
    either a boolean, or the [undefined] operand that stopped the chain. *)
Inductive Value : Type :=
| JBool (b : bool)
| JUndefined.

Definition truthy (v : Value) : bool :=
  match v with
  | JBool b => b
  | JUndefined => false
  end.

(** Truthiness of an optional string field: [undefined] and the empty
    string are both falsy. *)
Definition truthyString (s : option string) : bool :=
  match s with
  | Some s => negb (s =? "")
  | None => false
  end.

(** [s || otherwise] on an optional string. *)
Definition orElse (s : option string) (otherwise : string) : string :=
  match s with
  | Some v => if v =? "" then otherwise else v
  | None => otherwise
  end.

(** [String.prototype.toLowerCase] on the ASCII range, which is where
    Kubernetes namespaces (DNS labels) and uids (UUIDs) live. *)
Definition lowerAscii (c : ascii) : ascii :=
  let n := nat_of_ascii c in
  if ((65 <=? n) && (n <=? 90))%nat then ascii_of_nat (n + 32) else c.

Fixpoint toLowerCase (s : string) : string :=
  match s with
  | EmptyString => EmptyString
  | String c rest => String (lowerAscii c) (toLowerCase rest)
  end.

(** [String(n)] for an integral number. *)
Definition numberToString (n : Z) : string :=
  NilZero.string_of_int (Z.to_int n).

Definition isDigit (c : ascii) : bool :=
  let n := nat_of_ascii c in ((48 <=? n) && (n <=? 57))%nat.

Definition digitValue (c : ascii) : nat := (nat_of_ascii c - 48)%nat.

(** A placeholder being scanned: the text read since its opening brace
    (kept to be emitted as is when the placeholder is not completed), the
    index read so far and whether a digit has been read. *)
Record Pending : Type := mkPending {
  pendingText : string;
  pendingIndex : nat;
  pendingDigits : bool
}.

Definition openBrace : Pending := mkPending "{" 0 false.

Definition pendingEmit (p : option Pending) : string :=
  match p with
  | Some q => pendingText q
  | None => ""
  end.

(** [format(s, ...values)] of [@uifabric/utilities]: every [{n}] of [s]
    (the matches of [/\{\d+\}/g]) is replaced by [values[n]], or by the
    empty string when there is no such value. *)
Fixpoint formatFrom (values : list string) (p : option Pending) (s : string)
  : string :=
  match s with
  | EmptyString => pendingEmit p
  | String c rest =>
      if (c =? "{")%char then
        pendingEmit p ++ formatFrom values (Some openBrace) rest
      else
        match p with
        | None => String c (formatFrom values None rest)
        | Some q =>
            if isDigit c then
              formatFrom values
                (Some (mkPending (pendingText q ++ String c EmptyString)
                                 (10 * pendingIndex q + digitValue c) true))
                rest
            else if ((c =? "}")%char && pendingDigits q)%bool then
              nth (pendingIndex q) values "" ++ formatFrom values None rest
            else
              pendingText q ++ String c (formatFrom values None rest)
        end
  end.

Definition format (s : string) (values : list string) : string :=
  formatFrom values None s.

(** *** The wall clock

    [new Date()] reads the clock.  A clock is the sequence of the readings
    it will give (in milliseconds since the epoch) and the number of
    readings already taken. *)
Record Clock : Type := mkClock {
  tick : nat;
  readings : nat -> Z
}.

(** Computations that may read the clock. *)
Definition Timed (A : Type) : Type := Clock -> A * Clock.

Definition ret {A : Type} (a : A) : Timed A := fun c => (a, c).

Definition bind {A B : Type} (m : Timed A) (k : A -> Timed B) : Timed B :=
  fun c => let (a, c') := m c in k a c'.

(** [new Date().getTime()] *)
Definition now : Timed Z :=
  fun c => (readings c (tick c), mkClock (S (tick c)) (readings c)).

(** A computation keeps the readings when it leaves the clock with the
    readings it had, having only taken some of them. *)
Definition keepsReadings {A : Type} (m : Timed A) : Prop :=
  forall c, readings (snd (m c)) = readings c.

End JS.

Notation "x <- m ;; k" := (JS.bind m (fun x => k))
  (at level 61, m at next level, right associativity).

(* ================================================================== *)
(** ** The Kubernetes objects the panel reads *)
(* ================================================================== *)

Module Kube.

Record V1OwnerReference : Type := mkOwnerReference {
  owner_uid : string
}.

(** [V1ObjectMeta].  [creationTimestamp] is the time value of the date in
    milliseconds since the epoch (the API server serialises valid RFC 3339
    timestamps); absent fields are [None]. *)
Record V1ObjectMeta : Type := mkObjectMeta {
  name : string;
  namespace : string;
  uid : string;
  annotations : option (list (string * string));
  ownerReferences : option (list V1OwnerReference);
  creationTimestamp : option Z
}.

Record V1Container : Type := mkContainer {
  image : string
}.

Record V1PodSpec : Type := mkPodSpec {
  containers : list V1Container
}.

Record V1PodTemplateSpec : Type := mkPodTemplateSpec {
  template_spec : V1PodSpec
}.

Record V1ReplicaSetSpec : Type := mkReplicaSetSpec {
  template : V1PodTemplateSpec
}.

Record V1ReplicaSetStatus : Type := mkReplicaSetStatus {
  availableReplicas : option Z;
  replicas : option Z
}.

Record V1ReplicaSet : Type := mkReplicaSet {
  rs_kind : option string;
  rs_metadata : V1ObjectMeta;
  rs_spec : V1ReplicaSetSpec;
  rs_status : V1ReplicaSetStatus
}.

Record V1ReplicaSetList : Type := mkReplicaSetList {
  rs_items : list V1ReplicaSet
}.

Record V1Deployment : Type := mkDeployment {
  dep_metadata : V1ObjectMeta
}.

Record V1DeploymentList : Type := mkDeploymentList {
  dep_items : list V1Deployment
}.

Record V1Pod : Type := mkPod {
  pod_metadata : V1ObjectMeta
}.

End Kube.

(* ================================================================== *)
(** ** WebUI/Types and the status indicators of azure-devops-ui *)
(* ================================================================== *)

Module Types.
Import Kube.

(** The members of [Statuses] (azure-devops-ui/Status). *)
Inductive IStatusProps : Type :=
| Success | Failed | Warning | Information | Running
| Waiting | Queued | Canceled | Skipped.

Record IDeploymentReplicaSetItem : Type := mkItem {
  item_name : option string;
  replicaSetName : option string;
  deploymentId : option string;
  replicaSetId : option string;
  pipeline : option string;
  pods : option string;
  statusProps : option IStatusProps;
  showRowBorder : option bool;
  item_deployment : option V1Deployment;
  item_image : string;
  creationTimeStamp : option Z;
  item_kind : option string
}.

Record IDeploymentReplicaSetMap : Type := mkEntry {
  deployment : V1Deployment;
  (* this list is sorted in descending order *)
  replicaSets : list V1ReplicaSet
}.

End Types.

(** A call either returns or throws a [TypeError] (a property read on
    [undefined]). *)
Inductive Result (A : Type) : Type :=
| Ok (a : A)
| TypeError.
Arguments Ok {A} a.
Arguments TypeError {A}.

(* ================================================================== *)
(** ** Array.prototype.sort with a comparator that may read the clock *)
(* ================================================================== *)

Module ArraySort.
Import JS.

Section Sort.
Context {A : Type}.
Variable comparefn : A -> A -> Timed Z.

(** One pass of a straight insertion sort.  [sorted] is the part of the
    array already in order, last element first; [element] is compared
    with the elements before it from the nearest one on, as
    [comparefn tmp element], and goes past [tmp] while the order is
    positive. *)
Fixpoint insert (element : A) (sorted : list A) : Timed (list A) :=
  match sorted with
  | [] => ret [element]
  | tmp :: before =>
      order <- comparefn tmp element ;;
      if order >? 0 then
        (moved <- insert element before ;; ret (tmp :: moved))
      else ret (element :: tmp :: before)
  end.

Fixpoint insertAll (from : list A) (sorted : list A) : Timed (list A) :=
  match from with
  | [] => ret sorted
  | element :: rest =>
      sorted' <- insert element sorted ;; insertAll rest sorted'
  end.

(** [Array.prototype.sort(comparefn)] as a straight insertion sort from
    left to right, which is stable, as the ECMAScript standard asks.  With
    a comparator that is not consistent the standard leaves the order to
    the implementation; this is the order of an insertion sort. *)
Definition sort (a : list A) : Timed (list A) :=
  sorted <- insertAll a [] ;; ret (rev sorted).

End Sort.

(** The same sort when the comparator is the difference of a key that
    does not depend on the clock: [comparefn a b = key b - key a]. *)
Section SortByKey.
Context {A : Type}.
Variable key : A -> Z.

Fixpoint insertByKey (element : A) (sorted : list A) : list A :=
  match sorted with
  | [] => [element]
  | tmp :: before =>
      if key element - key tmp >? 0 then tmp :: insertByKey element before
      else element :: tmp :: before
  end.

Fixpoint insertAllByKey (from : list A) (sorted : list A) : list A :=
  match from with
  | [] => sorted
  | element :: rest => insertAllByKey rest (insertByKey element sorted)
  end.

Definition sortByKey (a : list A) : list A := rev (insertAllByKey a []).

(** The orders on keys, and the test of one key. *)
Definition ascending (a b : A) : Prop := (key a <= key b)%Z.

Definition descending (a b : A) : Prop := (key a >= key b)%Z.

Definition hasKey (t : Z) (x : A) : bool := (key x =? t)%Z.

End SortByKey.

End ArraySort.

(* ================================================================== *)
(** ** DeploymentsTable *)
(* ================================================================== *)

Module DeploymentsTable.
Import JS Kube Types.

Record IDeploymentsTableState : Type := mkTableState {
  deploymentList : option V1DeploymentList;
  replicaSetList : option V1ReplicaSetList
}.

(** [replicaSetList && replicaSetList.items || []] *)
Definition itemsOrEmpty (replicaSetList : option V1ReplicaSetList)
  : list V1ReplicaSet :=
  match replicaSetList with
  | Some l => rs_items l
  | None => []
  end.

Definition _getCreationTime (metadata : V1ObjectMeta) : Timed Z :=
  match creationTimestamp metadata with
  | Some t => ret t
  | None => now
  end.

(** What [_getCreationTime] returns for a replica set when the clock
    reads [now]. *)
Definition creationTimeAt (now : Z) (replica : V1ReplicaSet) : Z :=
  match creationTimestamp (rs_metadata replica) with
  | Some t => t
  | None => now
  end.

(** A replica set that, when it has a creation timestamp, was created
    before [bound]. *)
Definition createdBefore (bound : Z) (replica : V1ReplicaSet) : Prop :=
  forall t, creationTimestamp (rs_metadata replica) = Some t -> t < bound.

(** The callers pass objects, so [!!deployment && !!replica] holds; the
    chain of [&&] then stops at its first falsy operand. *)
Definition _isReplicaSetForDeployment (deployment : V1Deployment)
  (replica : V1ReplicaSet) : Value :=
  if toLowerCase (namespace (rs_metadata replica))
     =? toLowerCase (namespace (dep_metadata deployment))
  then
    match ownerReferences (rs_metadata replica) with
    | None => JUndefined
    | Some [] => JBool false
    | Some (first :: _) =>
        JBool (toLowerCase (owner_uid first)
               =? toLowerCase (uid (dep_metadata deployment)))
    end
  else JBool false.

(** The comparator of the sort, descending order; the time of [b] is
    taken first. *)
Definition byCreationTime (a b : V1ReplicaSet) : Timed Z :=
  tb <- _getCreationTime (rs_metadata b) ;;
  ta <- _getCreationTime (rs_metadata a) ;;
  ret (tb - ta).

Definition filteredReplicas (deployment : V1Deployment)
  (replicaSetList : option V1ReplicaSetList) : list V1ReplicaSet :=
  filter (fun replica =>
            truthy (_isReplicaSetForDeployment deployment replica))
         (itemsOrEmpty replicaSetList).

(** The body of the [forEach]: one entry is pushed per deployment. *)
Fixpoint pushEntries (replicaSetList : option V1ReplicaSetList)
  (deployments : list V1Deployment)
  (deploymentReplicaSetMap : list IDeploymentReplicaSetMap)
  : Timed (list IDeploymentReplicaSetMap) :=
  match deployments with
  | [] => ret deploymentReplicaSetMap
  | deployment :: rest =>
      sorted <- ArraySort.sort byCreationTime
                  (filteredReplicas deployment replicaSetList) ;;
      pushEntries replicaSetList rest
        (deploymentReplicaSetMap ++ [mkEntry deployment sorted])
  end.

Definition _generateDeploymentReplicaSetMap
  (deploymentList : list V1Deployment)
  (replicaSetList : option V1ReplicaSetList)
  : Timed (list IDeploymentReplicaSetMap) :=
  pushEntries replicaSetList deploymentList [].

Definition _getPodsText (availableReplicas replicas : option Z) : string :=
  match replicas, availableReplicas with
  | Some r, Some a =>
      if r >? 0 then format "{0}/{1}" [numberToString a; numberToString r]
      else ""
  | _, _ => ""
  end.

Definition _getPodsStatusProps (availableReplicas replicas : option Z)
  : option IStatusProps :=
  match replicas, availableReplicas with
  | Some r, Some a =>
      if r >? 0 then
        if (a <? r)%Z then Some Running else Some Success
      else None
  | _, _ => None
  end.

Section Items.
(** [Utils.getPipelineText], which reads the pipeline annotations. *)
Variable getPipelineText : option (list (string * string)) -> string.

Definition _getDeploymentReplicaSetItem (deployment : V1Deployment)
  (replica : V1ReplicaSet) (index : nat) (replicaSetLength : nat)
  : Result IDeploymentReplicaSetItem :=
  let annotations :=
    if (index =? 0)%nat then annotations (dep_metadata deployment)
    else annotations (rs_metadata replica) in
  match containers (template_spec (template (rs_spec replica))) with
  | [] => TypeError
  | container0 :: _ =>
      Ok {| item_name :=
              Some (if (0 <? index)%nat then ""
                    else name (dep_metadata deployment));
            deploymentId := Some (uid (dep_metadata deployment));
            replicaSetId := Some (uid (rs_metadata replica));
            replicaSetName := Some (name (rs_metadata replica));
            pipeline := Some (getPipelineText annotations);
            pods := Some (_getPodsText
                            (availableReplicas (rs_status replica))
                            (replicas (rs_status replica)));
            statusProps := _getPodsStatusProps
                             (availableReplicas (rs_status replica))
                             (replicas (rs_status replica));
            showRowBorder := Some (replicaSetLength =? index + 1)%nat;
            item_deployment := Some deployment;
            item_image := image container0;
            creationTimeStamp := creationTimestamp (rs_metadata replica);
            item_kind := Some (orElse (rs_kind replica) "ReplicaSet") |}
  end.

(** The [forEach] from [index] on; a throwing call ends it. *)
Fixpoint pushItems (deployment : V1Deployment) (replicaSetLength : nat)
  (index : nat) (replicaSets : list V1ReplicaSet)
  (items : list IDeploymentReplicaSetItem)
  : Result (list IDeploymentReplicaSetItem) :=
  match replicaSets with
  | [] => Ok items
  | replicaSet :: rest =>
      match _getDeploymentReplicaSetItem deployment replicaSet index
              replicaSetLength with
      | TypeError => TypeError
      | Ok item =>
          pushItems deployment replicaSetLength (S index) rest
            (items ++ [item])
      end
  end.

Definition _getDeploymentReplicaSetItems (deployment : V1Deployment)
  (replicaSets : list V1ReplicaSet)
  : Result (list IDeploymentReplicaSetItem) :=
  pushItems deployment (List.length replicaSets) 0 replicaSets [].

End Items.

(** The payload of [SelectionActions.selectItem]. *)
Record ISelectionPayload : Type := mkPayload {
  item : V1ReplicaSet;
  showSelectedItem : bool;
  selectedItemType : string
}.

Section Selection.
(** [SelectedItemKeys.ReplicaSetKey] of WebUI/Constants. *)
Variable ReplicaSetKey : string.

(** [null] and [undefined] are both [None]. *)
Definition _getSelectedReplicaSet (state : IDeploymentsTableState)
  (selectedItem : option IDeploymentReplicaSetItem) : option V1ReplicaSet :=
  match selectedItem with
  | None => None
  | Some selected =>
      if truthyString (deploymentId selected)
         && truthyString (replicaSetId selected) then
        match deploymentId selected, replicaSetId selected with
        | Some dId, Some rId =>
            let selectedItemDeploymentUId := toLowerCase dId in
            let selectedItemReplicaSetUId := toLowerCase rId in
            let replicas := replicaSetList state in
            let filteredReplica :=
              filter (fun replica =>
                        toLowerCase (uid (rs_metadata replica))
                        =? selectedItemReplicaSetUId)
                     (itemsOrEmpty replicas) in
            nth_error filteredReplica 0
        | _, _ => None
        end
      else None
  end.

(** The actions invoked on the selection hub by activating a row. *)
Definition _openDeploymentItem (state : IDeploymentsTableState)
  (selectedItem : option IDeploymentReplicaSetItem)
  : list ISelectionPayload :=
  match _getSelectedReplicaSet state selectedItem with
  | Some selectedReplicaSet =>
      [mkPayload selectedReplicaSet true ReplicaSetKey]
  | None => []
  end.

End Selection.

End DeploymentsTable.

(* ================================================================== *)
(** ** WorkloadsPivot *)
(* ================================================================== *)

Module WorkloadsPivot.
Import JS Kube Types.

(** Modelled from the spec: the [KubeResourceType] enumeration of
    Contracts/KubeServiceBase, which is not among the sources; these are
    the four resource-type tags the pivot tests. *)
Inductive KubeResourceType : Type :=
| Deployments | DaemonSets | StatefulSets | Pods.

Definition KubeResourceType_eqb (a b : KubeResourceType) : bool :=
  match a, b with
  | Deployments, Deployments | DaemonSets, DaemonSets
  | StatefulSets, StatefulSets | Pods, Pods => true
  | _, _ => false
  end.

(** [Array.prototype.indexOf] from position [from]: -1 when absent. *)
Fixpoint indexOfFrom (from : Z) (selections : list KubeResourceType)
  (resourceType : KubeResourceType) : Z :=
  match selections with
  | [] => -1
  | s :: rest =>
      if KubeResourceType_eqb s resourceType then from
      else indexOfFrom (from + 1) rest resourceType
  end.

Definition indexOf := indexOfFrom 0.

Record IFilterItemState (V : Type) : Type := mkFilterItem {
  value : V
}.
Arguments mkFilterItem {V} value.
Arguments value {V} i.

(** The two entries of the filter state the pivot reads, the one at
    [NameKey] and the one at [TypeKey]. *)
Record IFilterState : Type := mkFilterState {
  atNameKey : option (IFilterItemState string);
  atTypeKey : option (IFilterItemState (list KubeResourceType))
}.

(** The props read by the pivot; [filterState] is what
    [props.filter.getState()] returns. *)
Record IWorkloadsPivotProps : Type := mkProps {
  filterState : option IFilterState;
  props_namespace : option string
}.

Record IWorkloadsPivotState : Type := mkState {
  workloadResourceSize : Z;
  orphanPodsList : list V1Pod
}.

(** What the pivot reads from the workloads store: the orphan pods of
    [getState()] and the result of [getWorkloadSize()]. *)
Record WorkloadsStore : Type := mkStore {
  store_orphanPodsList : option (list V1Pod);
  getWorkloadSize : Z
}.

(** The tables the pivot can mount, with the props it passes (the
    service handle apart). *)
Inductive Element : Type :=
| DeploymentsTable (key : string) (nameFilter : option string)
| DaemonSetTable (key : string) (nameFilter : option string)
| StatefulSetTable (key : string) (nameFilter : option string)
| PodsTable (key : string) (podsToRender : list V1Pod)
    (nameFilter : option string).

(** The content area: the zero-data placeholder built by
    [KubeZeroData._getDefaultZeroData], or a [div] whose children are
    elements or nothing (a falsy operand of [&&] renders nothing). *)
Inductive Content : Type :=
| DefaultZeroData (hyperLink hyperLinkLabel title description : string)
| Div (children : list (option Element)).

(** The state set by the constructor. *)
Definition initialState : IWorkloadsPivotState :=
  {| orphanPodsList := []; workloadResourceSize := 0 |}.

Definition _onPodsFetched (store : WorkloadsStore)
  (state : IWorkloadsPivotState) : IWorkloadsPivotState :=
  {| workloadResourceSize := workloadResourceSize state;
     orphanPodsList := match store_orphanPodsList store with
                       | Some l => l
                       | None => []
                       end |}.

Definition _onDataFound (store : WorkloadsStore)
  (state : IWorkloadsPivotState) : IWorkloadsPivotState :=
  let workloadSize := getWorkloadSize store in
  if (workloadResourceSize state <=? 0)%Z && (workloadSize >? 0)%Z then
    {| workloadResourceSize := workloadSize;
       orphanPodsList := orphanPodsList state |}
  else state.

(** The store events the pivot listens to, each with the store as it is
    when the event is emitted. *)
Inductive WorkloadsEvents : Type :=
| WorkloadPodsFetchedEvent
| WorkloadsFoundEvent.

Definition dispatch (state : IWorkloadsPivotState)
  (e : WorkloadsEvents * WorkloadsStore) : IWorkloadsPivotState :=
  match fst e with
  | WorkloadPodsFetchedEvent => _onPodsFetched (snd e) state
  | WorkloadsFoundEvent => _onDataFound (snd e) state
  end.

Definition run (state : IWorkloadsPivotState)
  (events : list (WorkloadsEvents * WorkloadsStore)) : IWorkloadsPivotState :=
  fold_left dispatch events state.

Definition _getNameFilterValue (props : IWorkloadsPivotProps)
  : option string :=
  let filterItem := match filterState props with
                    | Some fs => atNameKey fs
                    | None => None
                    end in
  match filterItem with
  | Some i => Some (value i)
  | None => None
  end.

Definition _getTypeFilterValue (props : IWorkloadsPivotProps)
  : list KubeResourceType :=
  let filterItem := match filterState props with
                    | Some fs => atTypeKey fs
                    | None => None
                    end in
  match filterItem with
  | Some i => value i
  | None => []
  end.

Definition _showComponent (props : IWorkloadsPivotProps)
  (resourceType : KubeResourceType) : bool :=
  let selections := _getTypeFilterValue props in
  (* if no selections are made, show all components *)
  if (0 <? List.length selections)%nat then
    negb (indexOf selections resourceType =? -1)%Z
  else true.

(** [props.namespace || ""] *)
Definition namespaceOrEmpty (props : IWorkloadsPivotProps) : string :=
  orElse (props_namespace props) "".

Definition _getDeployments (props : IWorkloadsPivotProps) : Element :=
  DeploymentsTable (format "dc-{0}" [namespaceOrEmpty props])
    (_getNameFilterValue props).

Definition _getDaemonSetsComponent (props : IWorkloadsPivotProps) : Element :=
  DaemonSetTable (format "ds-list-{0}" [namespaceOrEmpty props])
    (_getNameFilterValue props).

Definition _getStatefulSetsComponent (props : IWorkloadsPivotProps)
  : Element :=
  StatefulSetTable (format "sts-list-{0}" [namespaceOrEmpty props])
    (_getNameFilterValue props).

Definition getOrphanPods (props : IWorkloadsPivotProps)
  (store : WorkloadsStore) : Element :=
  let pods := match store_orphanPodsList store with
              | Some l => l
              | None => []
              end in
  PodsTable (format "orphan-pods-list-{0}" [namespaceOrEmpty props]) pods
    (_getNameFilterValue props).

(** [{condition && element}] *)
Definition renderIf (condition : bool) (element : Element)
  : option Element :=
  if condition then Some element else None.

Section Content.
(** [Resources.LearnMoreText] and [Resources.NoWorkLoadsText]. *)
Variables LearnMoreText NoWorkLoadsText : string.

Definition _getContent (state : IWorkloadsPivotState)
  (props : IWorkloadsPivotProps) (store : WorkloadsStore) : Content :=
  if (workloadResourceSize state =? 0)%Z then
    DefaultZeroData "https://kubernetes.io/docs/concepts/workloads/pods/pod/"
      LearnMoreText NoWorkLoadsText NoWorkLoadsText
  else
    Div [ renderIf (_showComponent props Deployments) (_getDeployments props);
          renderIf (_showComponent props DaemonSets)
                   (_getDaemonSetsComponent props);
          renderIf (_showComponent props StatefulSets)
                   (_getStatefulSetsComponent props);
          renderIf ((0 <? List.length (orphanPodsList state))%nat
                    && _showComponent props Pods)
                   (getOrphanPods props store) ].

End Content.

(** The resource type a mounted table shows. *)
Definition tableType (e : Element) : KubeResourceType :=
  match e with
  | DeploymentsTable _ _ => Deployments
  | DaemonSetTable _ _ => DaemonSets
  | StatefulSetTable _ _ => StatefulSets
  | PodsTable _ _ _ => Pods
  end.

Definition showsType (resourceType : KubeResourceType)
  (child : option Element) : bool :=
  match child with
  | Some e => KubeResourceType_eqb (tableType e) resourceType
  | None => false
  end.

(** Whether the content holds the table of a resource type. *)
Definition rendersTable (resourceType : KubeResourceType)
  (content : Content) : bool :=
  match content with
  | DefaultZeroData _ _ _ _ => false
  | Div children => existsb (showsType resourceType) children
  end.

Definition isZeroData (content : Content) : bool :=
  match content with
  | DefaultZeroData _ _ _ _ => true
  | Div _ => false
  end.

End WorkloadsPivot.

(* ================================================================== *)
(** ** DeploymentsTable: the rendered list of tables *)
(* ================================================================== *)

Module DeploymentsTableView.
Import JS Kube Types.

(** [Array.prototype.join(" ")] *)
Fixpoint joinSpace (classes : list string) : string :=
  match classes with
  | [] => ""
  | [c] => c
  | c :: rest => c ++ " " ++ joinSpace rest
  end.

(** [css(...args)] of [@uifabric/utilities] on string arguments: the
    truthy ones are pushed and joined by a space. *)
Definition css (args : list string) : string :=
  joinSpace (filter (fun a => negb (a =? "")) args).

Record IDeploymentsTableProperties : Type := mkTableProps {
  nameFilter : option string
}.

(** What the store gives when [ReplicaSetsFetchedEvent] is emitted. *)
Record IWorkloadsStoreState : Type := mkStoreState {
  store_deploymentList : option V1DeploymentList;
  store_replicaSetList : option V1ReplicaSetList
}.

(** The state set by the constructor. *)
Definition initialState : DeploymentsTable.IDeploymentsTableState :=
  {| DeploymentsTable.deploymentList := None;
     DeploymentsTable.replicaSetList := None |}.

Definition _onReplicaSetsFetched (storeState : IWorkloadsStoreState)
  (state : DeploymentsTable.IDeploymentsTableState)
  : DeploymentsTable.IDeploymentsTableState :=
  {| DeploymentsTable.deploymentList := store_deploymentList storeState;
     DeploymentsTable.replicaSetList := store_replicaSetList storeState |}.

(** A [BaseKubeTable] element with the props that vary: [headingOf] is
    the deployment [_getHeadingContent] is applied to; the columns and
    the activation handler are the same for every table. *)
Record BaseKubeTable : Type := mkTable {
  key : string;
  className : string;
  headingOf : V1Deployment;
  items : list IDeploymentReplicaSetItem
}.

(** [this.state.deploymentList && this.state.deploymentList.items || []] *)
Definition deploymentsOrEmpty (deploymentList : option V1DeploymentList)
  : list V1Deployment :=
  match deploymentList with
  | Some l => dep_items l
  | None => []
  end.

Section Render.
(** [Utils.getPipelineText] and [Utils.filterByName]. *)
Variable getPipelineText : option (list (string * string)) -> string.
Variable filterByName : string -> option string -> bool.

(** The [forEach] over the entries from [index] on; a throwing call
    ends it. *)
Fixpoint pushTables (index : nat) (entries : list IDeploymentReplicaSetMap)
  (renderList : list BaseKubeTable) : Result (list BaseKubeTable) :=
  match entries with
  | [] => Ok renderList
  | entry :: rest =>
      let columnClassName :=
        css ["list-content"; "depth-16";
             if (0 <? index)%nat then "replica-with-pod-list" else ""] in
      match DeploymentsTable._getDeploymentReplicaSetItems getPipelineText
              (deployment entry) (replicaSets entry) with
      | TypeError => TypeError
      | Ok rows =>
          pushTables (S index) rest
            (renderList
             ++ [mkTable (format "dep-{0}" [numberToString (Z.of_nat index)])
                         columnClassName (deployment entry) rows])
      end
  end.

Definition _getDeploymentListView
  (state : DeploymentsTable.IDeploymentsTableState)
  (filteredDeployments : list V1Deployment)
  : Timed (Result (list BaseKubeTable)) :=
  entries <- DeploymentsTable._generateDeploymentReplicaSetMap
               filteredDeployments (DeploymentsTable.replicaSetList state) ;;
  ret (pushTables 0 entries []).

Definition filteredDeployments
  (state : DeploymentsTable.IDeploymentsTableState)
  (props : IDeploymentsTableProperties) : list V1Deployment :=
  filter (fun deployment =>
            filterByName (name (dep_metadata deployment)) (nameFilter props))
         (deploymentsOrEmpty (DeploymentsTable.deploymentList state)).

(** [render]: the tables in a [div], or [null] ([None]). *)
Definition render (state : DeploymentsTable.IDeploymentsTableState)
  (props : IDeploymentsTableProperties)
  : Timed (Result (option (list BaseKubeTable))) :=
  let filtered := filteredDeployments state props in
  if (0 <? List.length filtered)%nat then
    view <- _getDeploymentListView state filtered ;;
    ret (match view with
         | Ok tables => Ok (Some tables)
         | TypeError => TypeError
         end)
  else ret (Ok None).

End Render.

End DeploymentsTableView.

(* ================================================================== *)
(** ** PodsRightPanel *)
(* ================================================================== *)

Module PodsRightPanel.
Import JS Kube.

Record IPodsRightPanelState : Type := mkPanelState {
  selectedTab : string
}.

(** The state set by the constructor. *)
Definition initialState : IPodsRightPanelState := {| selectedTab := "" |}.

Definition _onSelectedTabChanged (selected : string)
  (state : IPodsRightPanelState) : IPodsRightPanelState :=
  {| selectedTab := selected |}.

Inductive TabContent : Type :=
| Span (text : string)
| PodDetailsView (pod : V1Pod).

Section Keys.
(** [PodsRightPanelTabsKeys] of WebUI/Constants. *)
Variables PodsDetailsKey PodsLogsKey PodsYamlKey : string.

(** The [selectedTabId] given to the tab bar. *)
Definition selectedTabId (state : IPodsRightPanelState) : string :=
  orElse (Some (selectedTab state)) PodsDetailsKey.

Definition _getTabContent (state : IPodsRightPanelState) (pod : V1Pod)
  : TabContent :=
  if selectedTab state =? PodsLogsKey then
    Span "Pods Logs View coming soon..."
  else if selectedTab state =? PodsYamlKey then
    Span "Pods YAML View coming soon..."
  else PodDetailsView pod.

End Keys.

End PodsRightPanel.

(* ================================================================== *)
(** ** Readings of the pivot's content and of its event history *)
(* ================================================================== *)

Module PivotReadings.
Import JS Kube WorkloadsPivot.

Definition elementKey (e : Element) : string :=
  match e with
  | WorkloadsPivot.DeploymentsTable k _ | DaemonSetTable k _
  | StatefulSetTable k _ | PodsTable k _ _ => k
  end.

Definition elementNameFilter (e : Element) : option string :=
  match e with
  | WorkloadsPivot.DeploymentsTable _ f | DaemonSetTable _ f
  | StatefulSetTable _ f | PodsTable _ _ f => f
  end.

(** The elements a list of children renders. *)
Fixpoint rendered (children : list (option Element)) : list Element :=
  match children with
  | [] => []
  | Some e :: rest => e :: rendered rest
  | None :: rest => rendered rest
  end.

Definition contentElements (content : Content) : list Element :=
  match content with
  | DefaultZeroData _ _ _ _ => []
  | Div children => rendered children
  end.

(** An event that reports workloads: [WorkloadsFoundEvent] with a
    positive size in the store. *)
Definition reportsWorkloads (e : WorkloadsEvents * WorkloadsStore) : bool :=
  match fst e with
  | WorkloadsFoundEvent => (getWorkloadSize (snd e) >? 0)%Z
  | WorkloadPodsFetchedEvent => false
  end.

Definition isPodsFetched (e : WorkloadsEvents * WorkloadsStore) : bool :=
  match fst e with
  | WorkloadPodsFetchedEvent => true
  | WorkloadsFoundEvent => false
  end.

(** [storeState.orphanPodsList || []] *)
Definition storeOrphanPods (store : WorkloadsStore) : list V1Pod :=
  match store_orphanPodsList store with
  | Some l => l
  | None => []
  end.

(** The prefix of the key of the table of a resource type. *)
Definition keyPrefix (resourceType : KubeResourceType) : string :=
  match resourceType with
  | Deployments => "dc-"
  | DaemonSets => "ds-list-"
  | StatefulSets => "sts-list-"
  | Pods => "orphan-pods-list-"
  end.

End PivotReadings.

(* ================================================================== *)
(** ** Sample objects and clocks *)
(* ================================================================== *)

Import JS Kube Types WorkloadsPivot PivotReadings.

Definition sampleMeta (name ns uid : string) (owner : option string)
  (created : option Z) : V1ObjectMeta :=
  {| name := name; namespace := ns; uid := uid;
     annotations := None;
     ownerReferences := match owner with
                        | Some o => Some [mkOwnerReference o]
                        | None => None
                        end;
     creationTimestamp := created |}.

Definition sampleReplicaSet (name uid owner : string) (created : option Z)
  (available total : option Z) : V1ReplicaSet :=
  {| rs_kind := None;
     rs_metadata := sampleMeta name "ns" uid (Some owner) created;
     rs_spec := mkReplicaSetSpec
                  (mkPodTemplateSpec (mkPodSpec [mkContainer "nginx:1.15"]));
     rs_status := mkReplicaSetStatus available total |}.

Definition d1 : V1Deployment :=
  mkDeployment (sampleMeta "d1" "NS" "U1" None (Some 100)).

Definition rs1 : V1ReplicaSet :=
  sampleReplicaSet "rs1" "r1" "u1" (Some 2000) (Some 3) (Some 3).

Definition rs2 : V1ReplicaSet :=
  sampleReplicaSet "rs2" "r2" "u1" (Some 1000) (Some 1) (Some 3).

(** A reading of the pipeline annotation, to run the rows on. *)
Definition samplePipelineText (a : option (list (string * string))) : string :=
  match a with
  | Some ((_, v) :: _) => v
  | _ => ""
  end.

Definition sampleTableState : DeploymentsTable.IDeploymentsTableState :=
  {| DeploymentsTable.deploymentList := Some (mkDeploymentList [d1]);
     DeploymentsTable.replicaSetList := Some (mkReplicaSetList [rs1; rs2]) |}.

Definition sampleSelected : IDeploymentReplicaSetItem :=
  {| item_name := Some ""; replicaSetName := Some "rs2";
     deploymentId := Some "U1"; replicaSetId := Some "R2";
     pipeline := Some ""; pods := Some "1/3"; statusProps := Some Running;
     showRowBorder := Some true; item_deployment := Some d1;
     item_image := "nginx:1.15"; creationTimeStamp := Some 1000;
     item_kind := Some "ReplicaSet" |}.

Definition sampleProps (selections : list KubeResourceType)
  : IWorkloadsPivotProps :=
  {| filterState := Some {| atNameKey := None;
                            atTypeKey := Some (mkFilterItem selections) |};
     props_namespace := Some "ns" |}.

Definition sampleStore : WorkloadsStore :=
  {| store_orphanPodsList := None; getWorkloadSize := 3 |}.

Definition frozenClock : Clock := mkClock 0 (fun _ => 9000).

(** A clock that starts at 9000 and advances at every reading. *)
Definition tickingClock : Clock := mkClock 0 (fun n => 9000 + Z.of_nat n).

Definition d2 : V1Deployment :=
  mkDeployment (sampleMeta "d2" "ns" "u2" None (Some 200)).

(** A clock that reads 4000 first and 7000 from then on. *)
Definition jumpingClock : Clock :=
  mkClock 0 (fun n => if (n =? 0)%nat then 4000 else 7000).

Definition rsUndated : V1ReplicaSet :=
  sampleReplicaSet "rs-undated" "r0" "u1" None (Some 1) (Some 1).

Definition rsOlder : V1ReplicaSet :=
  sampleReplicaSet "rs-older" "r5" "u1" (Some 5000) (Some 1) (Some 1).

Definition rsNewer : V1ReplicaSet :=
  sampleReplicaSet "rs-newer" "r6" "u1" (Some 6000) (Some 1) (Some 1).

Definition timestampOrZero (replica : V1ReplicaSet) : Z :=
  DeploymentsTable.creationTimeAt 0 replica.

Definition sampleSelectedElsewhere : IDeploymentReplicaSetItem :=
  {| item_name := Some "d2"; replicaSetName := Some "rs2";
     deploymentId := Some "u2"; replicaSetId := Some "R2";
     pipeline := Some ""; pods := Some "1/3"; statusProps := Some Running;
     showRowBorder := Some true; item_deployment := None;
     item_image := "nginx:1.15"; creationTimeStamp := Some 1000;
     item_kind := Some "ReplicaSet" |}.

Definition sampleFilterByName (name : string) (nameFilter : option string)
  : bool :=
  match nameFilter with
  | Some f => name =? f
  | None => true
  end.

Definition rsNoContainer : V1ReplicaSet :=
  {| rs_kind := None;
     rs_metadata := sampleMeta "rs-bare" "ns" "r9" (Some "u1") (Some 3000);
     rs_spec := mkReplicaSetSpec (mkPodTemplateSpec (mkPodSpec []));
     rs_status := mkReplicaSetStatus None None |}.

(* ================================================================== *)
(** * Properties *)
(* ================================================================== *)

(** ** The association between a deployment and a replica set *)

(** C1: a replica set is associated with a deployment exactly when their
    namespaces are equal up to case and the replica set has a first owner
    reference whose uid equals the uid of the deployment up to case. *)
Theorem isReplicaSetForDeployment_iff :
  forall (deployment : V1Deployment) (replica : V1ReplicaSet),
    truthy (DeploymentsTable._isReplicaSetForDeployment deployment replica)
    = true
    <->
    (toLowerCase (namespace (rs_metadata replica))
     = toLowerCase (namespace (dep_metadata deployment))
     /\ exists first others,
          ownerReferences (rs_metadata replica) = Some (first :: others)
          /\ toLowerCase (owner_uid first)
             = toLowerCase (uid (dep_metadata deployment))).
Proof.
  intros deployment replica.
  unfold DeploymentsTable._isReplicaSetForDeployment.
  destruct (String.eqb_spec
              (toLowerCase (namespace (rs_metadata replica)))
              (toLowerCase (namespace (dep_metadata deployment))))
    as [Hns | Hns].
  - destruct (ownerReferences (rs_metadata replica)) as [[| first others] |];
      simpl.
    + split; [discriminate |].
      intros [_ (f & o & Heq & _)]; discriminate.
    + rewrite String.eqb_eq. split.
      * intros Huid. split; [exact Hns |]. now exists first, others.
      * intros [_ (f & o & Heq & Huid)]. now inversion Heq; subst.
    + split; [discriminate |].
      intros [_ (f & o & Heq & _)]; discriminate.
  - simpl. split; [discriminate |]. intros [Heq _]. contradiction.
Qed.

Lemma isReplicaSetForDeployment_iff_witness :
  truthy (DeploymentsTable._isReplicaSetForDeployment d1 rs1) = true.
Proof.
  apply (proj2 (isReplicaSetForDeployment_iff d1 rs1)).
  split; [reflexivity |].
  exists (mkOwnerReference "u1"), []. split; reflexivity.
Defined.

(** ** Row fields *)

Lemma append_nil_r : forall s : string, s ++ "" = s.
Proof.
  induction s as [| c s IH]; simpl; [reflexivity | now rewrite IH].
Qed.

(** C3, as stated, fails: a replica set with no available replica out of
    three is shown as running, although 0 < available does not hold. *)
Lemma getPodsStatusProps_running_at_zero :
  ~ (forall availableReplicas replicas : option Z,
       DeploymentsTable._getPodsStatusProps availableReplicas replicas
       = Some Running
       <-> exists a r, availableReplicas = Some a /\ replicas = Some r
                       /\ 0 < a < r).
Proof.
  intros H.
  destruct (proj1 (H (Some 0) (Some 3)) eq_refl) as (a & r & Ha & _ & Hlt).
  inversion Ha; subst. lia.
Qed.

(** C3, amended: the status is "success" exactly when both counts are
    known, the total is positive and the available count is not below it;
    "running" exactly when both are known, the total is positive and the
    available count is below it; and absent exactly in the other cases. *)
Theorem getPodsStatusProps_cases :
  forall availableReplicas replicas : option Z,
    let status :=
      DeploymentsTable._getPodsStatusProps availableReplicas replicas in
    (status = Some Success
     <-> exists a r, availableReplicas = Some a /\ replicas = Some r
                     /\ 0 < r <= a)
    /\ (status = Some Running
        <-> exists a r, availableReplicas = Some a /\ replicas = Some r
                        /\ 0 < r /\ a < r)
    /\ (status = None
        <-> availableReplicas = None \/ replicas = None
            \/ exists r, replicas = Some r /\ r <= 0)
    /\ (status = Some Success \/ status = Some Running \/ status = None).
Proof.
  intros [a |] [r |]; simpl;
    try (repeat split; try discriminate; auto;
         intros (a' & r' & Ha & Hr & _); discriminate).
  destruct (Z.gtb_spec r 0) as [Hr | Hr];
    [destruct (Z.ltb_spec a r) as [Ha | Ha] |];
    (repeat split;
     try discriminate; auto;
     try (intros _; exists a, r; repeat split; auto; lia);
     try (intros (a' & r' & Ha' & Hr' & Hlt);
          inversion Ha'; inversion Hr'; subst; lia);
     try (intros [Hn | [Hn | (r' & Hr' & Hle)]];
          [discriminate | discriminate | inversion Hr'; subst; lia]);
     try (intros _; right; right; exists r; split; [reflexivity | lia])).
Qed.

Lemma getPodsStatusProps_cases_witness :
  DeploymentsTable._getPodsStatusProps (Some 1) (Some 3) = Some Running.
Proof.
  apply (proj2 (proj1 (proj2 (getPodsStatusProps_cases (Some 1) (Some 3))))).
  exists 1, 3. repeat split; lia.
Defined.

(** C4: the pods text is "available/total" when both counts are known
    and the total is positive, and is empty when the total is zero or
    either count is unknown. *)
Theorem getPodsText_cases :
  forall availableReplicas replicas : option Z,
    (forall a r, availableReplicas = Some a -> replicas = Some r -> 0 < r ->
       DeploymentsTable._getPodsText availableReplicas replicas
       = numberToString a ++ "/" ++ numberToString r)
    /\ (replicas = Some 0 \/ replicas = None \/ availableReplicas = None ->
        DeploymentsTable._getPodsText availableReplicas replicas = "").
Proof.
  intros availableReplicas replicas. split.
  - intros a r -> -> Hr. unfold DeploymentsTable._getPodsText.
    destruct (Z.gtb_spec r 0) as [_ | Hle]; [| lia].
    unfold format. simpl. now rewrite append_nil_r.
  - intros [-> | [-> | ->]].
    + now destruct availableReplicas.
    + reflexivity.
    + now destruct replicas.
Qed.

Lemma getPodsText_cases_witness :
  DeploymentsTable._getPodsText (Some 1) (Some 3) = "1/3".
Proof.
  apply (proj1 (getPodsText_cases (Some 1) (Some 3)) 1 3);
    [reflexivity | reflexivity | lia].
Defined.

(** ** The rows of one deployment *)

Section ItemsFacts.
Variable getPipelineText : option (list (string * string)) -> string.
Variable deployment : V1Deployment.

Lemma item_pipeline_source :
  forall replica index len row,
    DeploymentsTable._getDeploymentReplicaSetItem getPipelineText deployment
      replica index len = Ok row ->
    pipeline row
    = Some (getPipelineText
              (if (index =? 0)%nat then annotations (dep_metadata deployment)
               else annotations (rs_metadata replica))).
Proof.
  intros replica index len row.
  unfold DeploymentsTable._getDeploymentReplicaSetItem.
  destruct (containers _); [discriminate |].
  intros H; inversion H; reflexivity.
Qed.

(** The loop appends one row per replica set, the row of the replica set
    at position [j] being built with index [index + j]. *)
Lemma pushItems_rows :
  forall len replicaSets index acc items,
    DeploymentsTable.pushItems getPipelineText deployment len index
      replicaSets acc = Ok items ->
    exists rows,
      items = (acc ++ rows)%list
      /\ List.length rows = List.length replicaSets
      /\ forall j replica,
           nth_error replicaSets j = Some replica ->
           exists row,
             nth_error rows j = Some row
             /\ DeploymentsTable._getDeploymentReplicaSetItem getPipelineText
                  deployment replica (index + j) len = Ok row.
Proof.
  intros len replicaSets.
  induction replicaSets as [| replica rest IH]; intros index acc items H;
    simpl in H.
  - inversion H; subst. exists []. rewrite app_nil_r.
    repeat split. intros [| j] r Hj; discriminate.
  - destruct (DeploymentsTable._getDeploymentReplicaSetItem getPipelineText
                deployment replica index len) as [it |] eqn:Hit;
      [| discriminate].
    destruct (IH _ _ _ H) as (rows & Hitems & Hlen & Hrows).
    exists (it :: rows). rewrite <- app_assoc in Hitems.
    repeat split; [exact Hitems | simpl; now rewrite Hlen |].
    intros [| j] r Hj; simpl in Hj.
    + inversion Hj; subst. exists it. rewrite Nat.add_0_r. now split.
    + destruct (Hrows j r Hj) as (row & Hrow & Hbuilt).
      exists row. split; [exact Hrow |].
      now rewrite Nat.add_succ_r.
Qed.

(** The loop returns as soon as every replica set has a container. *)
Lemma pushItems_returns :
  forall len replicaSets index acc,
    Forall (fun replica =>
              containers (template_spec (template (rs_spec replica))) <> [])
           replicaSets ->
    exists items,
      DeploymentsTable.pushItems getPipelineText deployment len index
        replicaSets acc = Ok items.
Proof.
  intros len replicaSets.
  induction replicaSets as [| replica rest IH]; intros index acc Hall; simpl.
  - now exists acc.
  - inversion Hall as [| ? ? Hne Hrest]; subst.
    unfold DeploymentsTable._getDeploymentReplicaSetItem at 1.
    destruct (containers (template_spec (template (rs_spec replica))));
      [contradiction |].
    apply IH; exact Hrest.
Qed.

End ItemsFacts.

(** C5: in the rows built for a deployment, the pipeline of the row at
    index 0 comes from the annotations of the deployment, and the pipeline
    of every later row from the annotations of its own replica set. *)
Theorem getDeploymentReplicaSetItems_pipeline :
  forall (getPipelineText : option (list (string * string)) -> string)
         (deployment : V1Deployment) (replicaSets : list V1ReplicaSet)
         (items : list IDeploymentReplicaSetItem),
    DeploymentsTable._getDeploymentReplicaSetItems getPipelineText deployment
      replicaSets = Ok items ->
    List.length items = List.length replicaSets
    /\ forall index row,
         nth_error items index = Some row ->
         (index = 0%nat ->
          pipeline row
          = Some (getPipelineText (annotations (dep_metadata deployment))))
         /\ ((0 < index)%nat ->
             exists replica,
               nth_error replicaSets index = Some replica
               /\ pipeline row
                  = Some (getPipelineText
                            (annotations (rs_metadata replica)))).
Proof.
  intros gp deployment replicaSets items H.
  destruct (pushItems_rows gp deployment _ _ _ _ _ H)
    as (rows & Hitems & Hlen & Hrows).
  simpl in Hitems; subst rows.
  split; [exact Hlen |].
  intros index row Hrow.
  assert (Hlt : (index < List.length replicaSets)%nat).
  { rewrite <- Hlen. apply nth_error_Some. congruence. }
  destruct (nth_error replicaSets index) as [replica |] eqn:Hrs;
    [| apply nth_error_None in Hrs; lia].
  destruct (Hrows index replica Hrs) as (row' & Hrow' & Hbuilt).
  assert (row' = row) by congruence; subst row'.
  apply item_pipeline_source in Hbuilt. simpl in Hbuilt.
  split.
  - intros ->. exact Hbuilt.
  - intros Hpos. exists replica. split; [reflexivity |].
    destruct index; [lia | exact Hbuilt].
Qed.

Lemma getDeploymentReplicaSetItems_pipeline_witness :
  exists items,
    DeploymentsTable._getDeploymentReplicaSetItems samplePipelineText d1
      [rs1; rs2] = Ok items
    /\ List.length items = 2%nat.
Proof.
  eexists. split; [reflexivity |].
  apply (proj1 (getDeploymentReplicaSetItems_pipeline samplePipelineText d1
                  [rs1; rs2] _ eq_refl)).
Defined.

(** ** Selection of a row *)

Lemma nth_error_filter_0 :
  forall (A : Type) (f : A -> bool) (l : list A),
    nth_error (filter f l) 0 = find f l.
Proof.
  intros A f l. induction l as [| x l IH]; simpl; [reflexivity |].
  destruct (f x); [reflexivity | exact IH].
Qed.

Lemma truthyString_true :
  forall s, s <> "" -> truthyString (Some s) = true.
Proof.
  intros s Hs. simpl. destruct (String.eqb_spec s ""); [contradiction |].
  reflexivity.
Qed.

(** C9: activating a row whose item carries a deployment id and a replica
    set id invokes the selection action once, with the first replica set
    of the stored list whose uid equals the replica set id up to case and
    with the replica-set kind tag; when an id is missing (absent or empty)
    or no stored replica set has that uid, no action is invoked. *)
Theorem openDeploymentItem_cases :
  forall (ReplicaSetKey : string)
         (state : DeploymentsTable.IDeploymentsTableState)
         (selected : IDeploymentReplicaSetItem),
    let stored :=
      DeploymentsTable.itemsOrEmpty (DeploymentsTable.replicaSetList state) in
    let missing (id : option string) := id = None \/ id = Some "" in
    (forall dId rId replicaSet,
        deploymentId selected = Some dId -> dId <> "" ->
        replicaSetId selected = Some rId -> rId <> "" ->
        find (fun replica =>
                toLowerCase (uid (rs_metadata replica)) =? toLowerCase rId)
             stored = Some replicaSet ->
        DeploymentsTable._openDeploymentItem ReplicaSetKey state
          (Some selected)
        = [DeploymentsTable.mkPayload replicaSet true ReplicaSetKey])
    /\ (missing (deploymentId selected) \/ missing (replicaSetId selected)
        \/ (forall rId, replicaSetId selected = Some rId ->
              forall replica, In replica stored ->
                toLowerCase (uid (rs_metadata replica)) <> toLowerCase rId) ->
        DeploymentsTable._openDeploymentItem ReplicaSetKey state
          (Some selected) = []).
Proof.
  intros key state selected stored missing. split.
  - intros dId rId replicaSet HdId Hd HrId Hr Hfind.
    unfold DeploymentsTable._openDeploymentItem,
      DeploymentsTable._getSelectedReplicaSet.
    rewrite HdId, HrId, !truthyString_true by assumption. cbn [andb].
    rewrite nth_error_filter_0. fold stored. now rewrite Hfind.
  - unfold DeploymentsTable._openDeploymentItem,
      DeploymentsTable._getSelectedReplicaSet.
    intros [[Hd | Hd] | [[Hr | Hr] | Hnone]].
    + now rewrite Hd.
    + now rewrite Hd.
    + rewrite Hr. now rewrite andb_false_r.
    + rewrite Hr. now rewrite andb_false_r.
    + destruct (truthyString (deploymentId selected)
                && truthyString (replicaSetId selected)); [| reflexivity].
      destruct (deploymentId selected) as [dId |]; [| reflexivity].
      destruct (replicaSetId selected) as [rId |] eqn:HrId; [| reflexivity].
      rewrite nth_error_filter_0. fold stored.
      destruct (find _ stored) as [replica |] eqn:Hfind; [| reflexivity].
      apply find_some in Hfind. destruct Hfind as [Hin Heq].
      apply String.eqb_eq in Heq.
      exfalso. exact (Hnone rId eq_refl replica Hin Heq).
Qed.

Lemma openDeploymentItem_cases_witness :
  DeploymentsTable._openDeploymentItem "ReplicaSet" sampleTableState
    (Some sampleSelected)
  = [DeploymentsTable.mkPayload rs2 true "ReplicaSet"].
Proof.
  apply (proj1 (openDeploymentItem_cases "ReplicaSet" sampleTableState
                  sampleSelected) "U1" "R2" rs2);
    try reflexivity; discriminate.
Defined.

(* ================================================================== *)
(** ** The sort of the replica sets *)
(* ================================================================== *)

(** *** Computations that only move the clock forward *)

Lemma keepsReadings_ret :
  forall (A : Type) (a : A), keepsReadings (ret a).
Proof. intros A a c. reflexivity. Qed.

Lemma keepsReadings_now : keepsReadings now.
Proof. intros c. reflexivity. Qed.

Lemma keepsReadings_bind :
  forall (A B : Type) (m : Timed A) (k : A -> Timed B),
    keepsReadings m -> (forall a, keepsReadings (k a)) ->
    keepsReadings (bind m k).
Proof.
  intros A B m k Hm Hk c. unfold bind.
  specialize (Hm c). destruct (m c) as [a c']. simpl in Hm.
  now rewrite Hk.
Qed.

Create HintDb clock.

#[local] Hint Resolve keepsReadings_ret keepsReadings_now keepsReadings_bind
  : clock.

Section SortFacts.
Context {A : Type}.
Variable comparefn : A -> A -> Timed Z.
Hypothesis comparefn_keeps : forall a b, keepsReadings (comparefn a b).

Lemma insert_keeps :
  forall element sorted, keepsReadings (ArraySort.insert comparefn element sorted).
Proof.
  intros element sorted.
  induction sorted as [| tmp before IH]; simpl; auto with clock.
  apply keepsReadings_bind; [apply comparefn_keeps |].
  intros order. destruct (order >? 0)%Z; auto with clock.
Qed.

Lemma insertAll_keeps :
  forall from sorted, keepsReadings (ArraySort.insertAll comparefn from sorted).
Proof.
  induction from as [| element rest IH]; intros sorted; simpl;
    auto using insert_keeps with clock.
Qed.

Lemma sort_keeps :
  forall a, keepsReadings (ArraySort.sort comparefn a).
Proof.
  intros a. unfold ArraySort.sort.
  auto using insertAll_keeps with clock.
Qed.

(** Whatever the comparator answers, the sort rearranges its input. *)
Lemma insert_Permutation :
  forall element sorted c,
    Permutation (element :: sorted)
                (fst (ArraySort.insert comparefn element sorted c)).
Proof.
  intros element sorted.
  induction sorted as [| tmp before IH]; intros c; simpl.
  - apply Permutation_refl.
  - unfold bind. destruct (comparefn tmp element c) as [order c'].
    destruct (order >? 0)%Z; simpl; [| apply Permutation_refl].
    specialize (IH c').
    destruct (ArraySort.insert comparefn element before c') as [moved c''].
    simpl in IH |- *. rewrite perm_swap. now apply perm_skip.
Qed.

Lemma insertAll_Permutation :
  forall from sorted c,
    Permutation (from ++ sorted)%list
                (fst (ArraySort.insertAll comparefn from sorted c)).
Proof.
  induction from as [| element rest IH]; intros sorted c; simpl.
  - apply Permutation_refl.
  - unfold bind.
    pose proof (insert_Permutation element sorted c) as Hins.
    destruct (ArraySort.insert comparefn element sorted c) as [sorted' c'].
    simpl in Hins. rewrite <- IH. rewrite <- Hins.
    apply Permutation_middle.
Qed.

Lemma sort_Permutation :
  forall a c, Permutation a (fst (ArraySort.sort comparefn a c)).
Proof.
  intros a c. unfold ArraySort.sort, bind.
  pose proof (insertAll_Permutation a [] c) as Hall.
  destruct (ArraySort.insertAll comparefn a [] c) as [sorted c'].
  simpl in Hall |- *. rewrite app_nil_r in Hall.
  rewrite Hall. apply Permutation_rev.
Qed.

(** When, on the elements of [P], the comparator has the sign of the
    difference of a key at every call, the sort is the sort by that
    key. *)
Variable key : A -> Z.
Variable P : A -> Prop.
Variable rd : nat -> Z.
Hypothesis comparefn_key :
  forall a b c, P a -> P b -> readings c = rd ->
                (fst (comparefn a b c) >? 0)%Z = (key b - key a >? 0)%Z.

Lemma insert_byKey :
  forall element sorted c,
    P element -> Forall P sorted -> readings c = rd ->
    fst (ArraySort.insert comparefn element sorted c)
    = ArraySort.insertByKey key element sorted.
Proof.
  intros element sorted.
  induction sorted as [| tmp before IH]; intros c He Hs Hc; simpl.
  - reflexivity.
  - apply Forall_cons_iff in Hs. destruct Hs as [Htmp Hbefore].
    unfold bind.
    pose proof (comparefn_key tmp element c Htmp He Hc) as Hord.
    pose proof (comparefn_keeps tmp element c) as Hkeep.
    destruct (comparefn tmp element c) as [order c']. simpl in Hord, Hkeep.
    rewrite Hord.
    destruct (key element - key tmp >? 0)%Z; [| reflexivity].
    rewrite <- Hkeep in Hc. specialize (IH c' He Hbefore Hc).
    destruct (ArraySort.insert comparefn element before c') as [moved c''].
    simpl in IH |- *. now rewrite IH.
Qed.

Lemma Forall_Permutation :
  forall l l' : list A, Permutation l l' -> Forall P l -> Forall P l'.
Proof.
  intros l l' Hperm Hall. rewrite Forall_forall in *.
  intros x Hx. apply Hall. eapply Permutation_in; [| exact Hx].
  now apply Permutation_sym.
Qed.

Lemma insertAll_byKey :
  forall from sorted c,
    Forall P from -> Forall P sorted -> readings c = rd ->
    fst (ArraySort.insertAll comparefn from sorted c)
    = ArraySort.insertAllByKey key from sorted.
Proof.
  induction from as [| element rest IH]; intros sorted c Hf Hs Hc; simpl.
  - reflexivity.
  - apply Forall_cons_iff in Hf. destruct Hf as [He Hrest].
    unfold bind.
    pose proof (insert_byKey element sorted c He Hs Hc) as Hins.
    pose proof (insert_keeps element sorted c) as Hkeep.
    pose proof (insert_Permutation element sorted c) as Hperm.
    destruct (ArraySort.insert comparefn element sorted c) as [sorted' c'].
    simpl in Hins, Hkeep, Hperm |- *. rewrite <- Hins.
    apply IH; [exact Hrest | | congruence].
    eapply Forall_Permutation; [exact Hperm | now constructor].
Qed.

Lemma sort_byKey :
  forall a c,
    Forall P a -> readings c = rd ->
    fst (ArraySort.sort comparefn a c) = ArraySort.sortByKey key a.
Proof.
  intros a c Ha Hc. unfold ArraySort.sort, ArraySort.sortByKey, bind.
  pose proof (insertAll_byKey a [] c Ha (Forall_nil P) Hc) as Hall.
  destruct (ArraySort.insertAll comparefn a [] c) as [sorted c'].
  simpl in Hall |- *. now rewrite Hall.
Qed.

End SortFacts.

(** *** The sort by a key: order and stability *)

Section SortByKeyFacts.
Context {A : Type}.
Variable key : A -> Z.

Local Abbreviation ascending := (ArraySort.ascending key).
Local Abbreviation descending := (ArraySort.descending key).

Lemma insertByKey_In :
  forall element sorted x,
    In x (ArraySort.insertByKey key element sorted) ->
    x = element \/ In x sorted.
Proof.
  intros element sorted x.
  induction sorted as [| tmp before IH]; simpl.
  - intros [<- | []]. now left.
  - destruct (key element - key tmp >? 0)%Z; simpl.
    + intros [<- | H]; [right; now left |].
      destruct (IH H) as [-> | Hin]; [now left | right; now right].
    + intros [<- | H]; [now left | now right].
Qed.

(** The part already in order is kept last element first, so its keys
    ascend. *)
Lemma insertByKey_ascending :
  forall element sorted,
    StronglySorted ascending sorted ->
    StronglySorted ascending (ArraySort.insertByKey key element sorted).
Proof.
  intros element sorted Hs.
  induction Hs as [| tmp before Hbefore IH Hall]; simpl.
  - repeat constructor.
  - destruct (Z.gtb_spec (key element - key tmp) 0) as [Hgt | Hle].
    + constructor; [exact IH |].
      rewrite Forall_forall in *. intros x Hx.
      apply insertByKey_In in Hx. destruct Hx as [-> | Hx].
      * unfold ArraySort.ascending. lia.
      * now apply Hall.
    + constructor; [now constructor |].
      constructor; [unfold ArraySort.ascending; lia |].
      rewrite Forall_forall in *. intros x Hx.
      specialize (Hall x Hx). unfold ArraySort.ascending in *. lia.
Qed.

Lemma insertAllByKey_ascending :
  forall from sorted,
    StronglySorted ascending sorted ->
    StronglySorted ascending (ArraySort.insertAllByKey key from sorted).
Proof.
  induction from as [| element rest IH]; intros sorted Hs; simpl;
    [exact Hs | apply IH; now apply insertByKey_ascending].
Qed.

Lemma StronglySorted_snoc :
  forall (R : A -> A -> Prop) l x,
    StronglySorted R l -> Forall (fun y => R y x) l ->
    StronglySorted R (l ++ [x]).
Proof.
  intros R l x Hs. induction Hs as [| a l Hl IH Hall]; intros Hx; simpl.
  - repeat constructor.
  - apply Forall_cons_iff in Hx. destruct Hx as [Hax Hlx].
    constructor; [now apply IH |].
    apply Forall_app. split; [exact Hall | now constructor].
Qed.

Lemma StronglySorted_rev :
  forall (R : A -> A -> Prop) l,
    StronglySorted R l -> StronglySorted (fun a b => R b a) (rev l).
Proof.
  intros R l Hs. induction Hs as [| a l Hl IH Hall]; simpl.
  - constructor.
  - apply StronglySorted_snoc; [exact IH | now apply Forall_rev].
Qed.

Lemma sortByKey_descending :
  forall a, StronglySorted descending (ArraySort.sortByKey key a).
Proof.
  intros a. unfold ArraySort.sortByKey.
  pose proof (insertAllByKey_ascending a [] (SSorted_nil _)) as Hasc.
  apply StronglySorted_rev in Hasc.
  eapply StronglySorted_ind
    with (P := StronglySorted descending) in Hasc; [exact Hasc | ..].
  - constructor.
  - intros x l _ IH Hall. constructor; [exact IH |].
    rewrite Forall_forall in *. intros y Hy. specialize (Hall y Hy).
    unfold ArraySort.ascending, ArraySort.descending in *. lia.
Qed.

(** Stability: the elements of one key keep the order they had. *)
Variable t : Z.
Local Abbreviation hasKey := (ArraySort.hasKey key t).

Lemma insertByKey_filter :
  forall element sorted,
    filter hasKey (ArraySort.insertByKey key element sorted)
    = if hasKey element then element :: filter hasKey sorted
      else filter hasKey sorted.
Proof.
  intros element sorted.
  induction sorted as [| tmp before IH]; simpl.
  - destruct (hasKey element); reflexivity.
  - destruct (Z.gtb_spec (key element - key tmp) 0) as [Hgt | Hle]; simpl.
    + rewrite IH. unfold ArraySort.hasKey.
      destruct (Z.eqb_spec (key element) t), (Z.eqb_spec (key tmp) t);
        try reflexivity; lia.
    + reflexivity.
Qed.

Lemma insertAllByKey_filter :
  forall from sorted,
    filter hasKey (ArraySort.insertAllByKey key from sorted)
    = (rev (filter hasKey from) ++ filter hasKey sorted)%list.
Proof.
  induction from as [| element rest IH]; intros sorted; simpl.
  - reflexivity.
  - rewrite IH, insertByKey_filter.
    destruct (hasKey element); simpl; [| reflexivity].
    now rewrite <- app_assoc.
Qed.

Lemma sortByKey_filter :
  forall a, filter hasKey (ArraySort.sortByKey key a) = filter hasKey a.
Proof.
  intros a. unfold ArraySort.sortByKey.
  rewrite filter_rev, insertAllByKey_filter. simpl.
  now rewrite app_nil_r, rev_involutive.
Qed.

End SortByKeyFacts.

(** *** The map from deployments to replica sets *)

Lemma getCreationTime_keeps :
  forall metadata, keepsReadings (DeploymentsTable._getCreationTime metadata).
Proof.
  intros metadata. unfold DeploymentsTable._getCreationTime.
  destruct (creationTimestamp metadata); auto with clock.
Qed.

Lemma byCreationTime_keeps :
  forall a b, keepsReadings (DeploymentsTable.byCreationTime a b).
Proof.
  intros a b. unfold DeploymentsTable.byCreationTime.
  repeat (apply keepsReadings_bind; [apply getCreationTime_keeps | intros ?]).
  auto with clock.
Qed.

Lemma getCreationTime_value :
  forall replica c,
    fst (DeploymentsTable._getCreationTime (rs_metadata replica) c)
    = DeploymentsTable.creationTimeAt (readings c (tick c)) replica.
Proof.
  intros replica c.
  unfold DeploymentsTable._getCreationTime, DeploymentsTable.creationTimeAt.
  destruct (creationTimestamp (rs_metadata replica)); reflexivity.
Qed.

(** The comparator is the difference of the creation times at two
    readings of the clock, that of [b] not after that of [a]. *)
Lemma byCreationTime_value :
  forall a b c,
    exists k k',
      (k <= k')%nat
      /\ fst (DeploymentsTable.byCreationTime a b c)
         = DeploymentsTable.creationTimeAt (readings c k) b
           - DeploymentsTable.creationTimeAt (readings c k') a.
Proof.
  intros a b c.
  unfold DeploymentsTable.byCreationTime, DeploymentsTable._getCreationTime,
    DeploymentsTable.creationTimeAt, bind.
  destruct (creationTimestamp (rs_metadata b)) as [tb |],
           (creationTimestamp (rs_metadata a)) as [ta |]; simpl.
  - exists 0%nat, 0%nat. split; [lia | reflexivity].
  - exists 0%nat, (tick c). split; [lia | reflexivity].
  - exists (tick c), (tick c). split; [lia | reflexivity].
  - exists (tick c), (S (tick c)). split; [lia | reflexivity].
Qed.

Lemma pushEntries_deployments :
  forall replicaSetList deployments acc c,
    map deployment
        (fst (DeploymentsTable.pushEntries replicaSetList deployments acc c))
    = (map deployment acc ++ deployments)%list.
Proof.
  intros rsl deployments.
  induction deployments as [| d rest IH]; intros acc c; simpl.
  - now rewrite app_nil_r.
  - unfold bind.
    destruct (ArraySort.sort DeploymentsTable.byCreationTime
                (DeploymentsTable.filteredReplicas d rsl) c) as [sorted c'].
    rewrite IH, map_app. simpl. now rewrite <- app_assoc.
Qed.

(** Every entry pushed holds the sort of the replica sets of its
    deployment, run at some later state of the clock. *)
Lemma pushEntries_In :
  forall replicaSetList deployments acc c entry,
    In entry
       (fst (DeploymentsTable.pushEntries replicaSetList deployments acc c)) ->
    In entry acc
    \/ exists c',
         readings c' = readings c
         /\ replicaSets entry
            = fst (ArraySort.sort DeploymentsTable.byCreationTime
                     (DeploymentsTable.filteredReplicas (deployment entry)
                        replicaSetList) c').
Proof.
  intros rsl deployments.
  induction deployments as [| d rest IH]; intros acc c entry; simpl.
  - now left.
  - unfold bind.
    pose proof (sort_keeps _ byCreationTime_keeps
                  (DeploymentsTable.filteredReplicas d rsl) c) as Hkeep.
    destruct (ArraySort.sort DeploymentsTable.byCreationTime
                (DeploymentsTable.filteredReplicas d rsl) c)
      as [sorted c'] eqn:Hsort.
    simpl in Hkeep. intros Hin.
    destruct (IH _ _ _ Hin) as [Hacc | (c'' & Hrd & Hrs)].
    + apply in_app_or in Hacc. destruct Hacc as [Hacc | [<- | []]].
      * now left.
      * right. exists c. split; [reflexivity |]. simpl. now rewrite Hsort.
    + right. exists c''. split; [congruence | exact Hrs].
Qed.

(** C6: the map has one entry per deployment, in the order of the input,
    and the entry of a deployment that owns no replica set holds the empty
    list. *)
Theorem generateDeploymentReplicaSetMap_entries :
  forall (deploymentList : list V1Deployment)
         (replicaSetList : option V1ReplicaSetList) (c : Clock),
    let entries :=
      fst (DeploymentsTable._generateDeploymentReplicaSetMap deploymentList
             replicaSetList c) in
    map deployment entries = deploymentList
    /\ List.length entries = List.length deploymentList
    /\ forall entry,
         In entry entries ->
         DeploymentsTable.filteredReplicas (deployment entry) replicaSetList
         = [] ->
         replicaSets entry = [].
Proof.
  intros deploymentList rsl c entries.
  assert (Hmap : map deployment entries = deploymentList).
  { unfold entries, DeploymentsTable._generateDeploymentReplicaSetMap.
    now rewrite pushEntries_deployments. }
  split; [exact Hmap |]. split.
  - now rewrite <- Hmap, length_map.
  - intros entry Hin Hnone.
    apply pushEntries_In in Hin.
    destruct Hin as [[] | (c' & _ & Hrs)].
    rewrite Hrs, Hnone. reflexivity.
Qed.

Lemma generateDeploymentReplicaSetMap_entries_witness :
  map deployment
      (fst (DeploymentsTable._generateDeploymentReplicaSetMap [d1; d2]
              (Some (mkReplicaSetList [rs2; rs1])) frozenClock))
  = [d1; d2]
  /\ replicaSets (mkEntry d2 []) = [].
Proof.
  pose proof (generateDeploymentReplicaSetMap_entries [d1; d2]
                (Some (mkReplicaSetList [rs2; rs1])) frozenClock) as H.
  destruct H as (Hmap & _ & Hempty).
  split; [exact Hmap |].
  apply Hempty; [right; left; reflexivity | reflexivity].
Defined.

(** C2: at the replica set list [created at 5000; undated; created at
    6000] of one deployment, with a clock that reads 4000 and then 7000,
    the code leaves the list in that order: the undated replica set
    counts as created at 4000 when compared with the first and at 7000
    when compared with the last, and the replica set created at 5000 stays
    before the one created at 6000.  Whatever the clock reads afterwards,
    the list is not in descending order of creation time. *)
Lemma generateDeploymentReplicaSetMap_undated_run :
  fst (DeploymentsTable._generateDeploymentReplicaSetMap [d1]
         (Some (mkReplicaSetList [rsOlder; rsUndated; rsNewer]))
         jumpingClock)
  = [mkEntry d1 [rsOlder; rsUndated; rsNewer]]
  /\ forall now,
       ~ Sorted (ArraySort.descending (DeploymentsTable.creationTimeAt now))
                [rsOlder; rsUndated; rsNewer].
Proof.
  split; [reflexivity |].
  intros now Hsorted.
  inversion Hsorted as [| ? ? Htail Hhd]; subst.
  inversion Hhd as [| ? ? Hou]; subst.
  inversion Htail as [| ? ? _ Hhd']; subst.
  inversion Hhd' as [| ? ? Hun]; subst.
  unfold ArraySort.descending, DeploymentsTable.creationTimeAt in Hou, Hun.
  simpl in Hou, Hun. lia.
Qed.

(** *** The sort with a comparator that is right on distinct keys *)

Lemma ascending_rev_descending :
  forall (A : Type) (key : A -> Z) (l : list A),
    StronglySorted (ArraySort.ascending key) l ->
    StronglySorted (ArraySort.descending key) (rev l).
Proof.
  intros A key l Hasc. apply StronglySorted_rev in Hasc.
  induction Hasc as [| x l' _ IH Hall]; constructor; [exact IH |].
  rewrite Forall_forall in *. intros y Hy. specialize (Hall y Hy).
  unfold ArraySort.ascending, ArraySort.descending in *. lia.
Qed.

Section SortOrderFacts.
Context {A : Type}.
Variable comparefn : A -> A -> Timed Z.
Hypothesis comparefn_keeps : forall a b, keepsReadings (comparefn a b).
Variable key : A -> Z.
Variable P : A -> Prop.
Variable rd : nat -> Z.

(** On the elements of [P] the comparator may answer anything for two
    elements of one key, but puts elements of distinct keys in the order
    of the keys. *)
Hypothesis comparefn_order :
  forall a b c, P a -> P b -> readings c = rd ->
                (key a < key b -> fst (comparefn a b c) > 0)
                /\ (key b < key a -> fst (comparefn a b c) <= 0).

Lemma insert_ascending :
  forall element sorted c,
    P element -> Forall P sorted -> readings c = rd ->
    StronglySorted (ArraySort.ascending key) sorted ->
    StronglySorted (ArraySort.ascending key)
      (fst (ArraySort.insert comparefn element sorted c)).
Proof.
  intros element sorted.
  induction sorted as [| tmp before IH]; intros c He Hs Hc Hsorted; simpl.
  - repeat constructor.
  - apply Forall_cons_iff in Hs. destruct Hs as [Htmp Hbefore].
    apply StronglySorted_inv in Hsorted. destruct Hsorted as [Hsb Hall].
    unfold bind.
    destruct (comparefn_order tmp element c Htmp He Hc) as [Hlt Hgt].
    pose proof (comparefn_keeps tmp element c) as Hkeep.
    destruct (comparefn tmp element c) as [order c'].
    simpl in Hlt, Hgt, Hkeep.
    destruct (Z.gtb_spec order 0) as [Hpos | Hnon].
    + assert (Hle : key tmp <= key element) by lia.
      rewrite <- Hkeep in Hc. specialize (IH c' He Hbefore Hc Hsb).
      pose proof (insert_Permutation comparefn element before c') as Hperm.
      destruct (ArraySort.insert comparefn element before c')
        as [moved c''].
      simpl in IH, Hperm |- *. constructor; [exact IH |].
      eapply Permutation_Forall; [exact Hperm |].
      constructor; [exact Hle | exact Hall].
    + assert (Hle : key element <= key tmp) by lia.
      simpl. constructor; [now constructor |].
      constructor; [exact Hle |].
      rewrite Forall_forall in *. intros x Hx. specialize (Hall x Hx).
      unfold ArraySort.ascending in *. lia.
Qed.

Lemma insertAll_ascending :
  forall from sorted c,
    Forall P from -> Forall P sorted -> readings c = rd ->
    StronglySorted (ArraySort.ascending key) sorted ->
    StronglySorted (ArraySort.ascending key)
      (fst (ArraySort.insertAll comparefn from sorted c)).
Proof.
  induction from as [| element rest IH]; intros sorted c Hf Hs Hc Hsorted;
    simpl.
  - exact Hsorted.
  - apply Forall_cons_iff in Hf. destruct Hf as [He Hrest].
    unfold bind.
    pose proof (insert_ascending element sorted c He Hs Hc Hsorted) as Hins.
    pose proof (insert_keeps comparefn comparefn_keeps element sorted c)
      as Hkeep.
    pose proof (insert_Permutation comparefn element sorted c) as Hperm.
    destruct (ArraySort.insert comparefn element sorted c) as [sorted' c'].
    simpl in Hins, Hkeep, Hperm |- *.
    apply IH; [exact Hrest | | congruence | exact Hins].
    eapply Permutation_Forall; [exact Hperm | now constructor].
Qed.

Lemma sort_descending :
  forall a c,
    Forall P a -> readings c = rd ->
    StronglySorted (ArraySort.descending key)
      (fst (ArraySort.sort comparefn a c)).
Proof.
  intros a c Ha Hc. unfold ArraySort.sort, bind.
  pose proof (insertAll_ascending a [] c Ha (Forall_nil P) Hc
                (SSorted_nil _)) as Hall.
  destruct (ArraySort.insertAll comparefn a [] c) as [sorted c'].
  simpl in Hall |- *. now apply ascending_rev_descending.
Qed.

End SortOrderFacts.

(** With a clock ahead of their creation timestamps, the comparator puts
    two replica sets of distinct creation times in the order of these
    times, an undated replica set counting as created now. *)
Lemma byCreationTime_order :
  forall (now : Z) (rd : nat -> Z) a b c,
    DeploymentsTable.createdBefore now a ->
    DeploymentsTable.createdBefore now b ->
    (forall n, DeploymentsTable.createdBefore (rd n) a) ->
    (forall n, DeploymentsTable.createdBefore (rd n) b) ->
    readings c = rd ->
    (DeploymentsTable.creationTimeAt now a
     < DeploymentsTable.creationTimeAt now b ->
     fst (DeploymentsTable.byCreationTime a b c) > 0)
    /\ (DeploymentsTable.creationTimeAt now b
        < DeploymentsTable.creationTimeAt now a ->
        fst (DeploymentsTable.byCreationTime a b c) <= 0).
Proof.
  intros now rd a b c Ha Hb Hra Hrb Hc.
  destruct (byCreationTime_value a b c) as (k & k' & _ & ->).
  rewrite Hc. specialize (Hra k). specialize (Hrb k').
  unfold DeploymentsTable.createdBefore, DeploymentsTable.creationTimeAt
    in *.
  destruct (creationTimestamp (rs_metadata a)) as [ta |],
           (creationTimestamp (rs_metadata b)) as [tb |].
  - lia.
  - specialize (Ha ta eq_refl). specialize (Hra ta eq_refl). lia.
  - specialize (Hb tb eq_refl). specialize (Hrb tb eq_refl). lia.
  - lia.
Qed.

(** When moreover the clock never goes back, the comparator has the sign
    of the difference of the creation times. *)
Lemma byCreationTime_sign :
  forall (now : Z) (rd : nat -> Z) a b c,
    (forall n m, (n <= m)%nat -> rd n <= rd m) ->
    DeploymentsTable.createdBefore now a ->
    DeploymentsTable.createdBefore now b ->
    (forall n, DeploymentsTable.createdBefore (rd n) a) ->
    (forall n, DeploymentsTable.createdBefore (rd n) b) ->
    readings c = rd ->
    (fst (DeploymentsTable.byCreationTime a b c) >? 0)
    = (DeploymentsTable.creationTimeAt now b
       - DeploymentsTable.creationTimeAt now a >? 0).
Proof.
  intros now rd a b c Hmono Ha Hb Hra Hrb Hc.
  destruct (byCreationTime_value a b c) as (k & k' & Hk & ->).
  rewrite Hc. specialize (Hra k). specialize (Hrb k').
  specialize (Hmono k k' Hk).
  unfold DeploymentsTable.createdBefore, DeploymentsTable.creationTimeAt
    in *.
  destruct (creationTimestamp (rs_metadata a)) as [ta |],
           (creationTimestamp (rs_metadata b)) as [tb |].
  - reflexivity.
  - specialize (Ha ta eq_refl). specialize (Hra ta eq_refl).
    destruct (Z.gtb_spec (rd k - ta) 0), (Z.gtb_spec (now - ta) 0);
      try reflexivity; lia.
  - specialize (Hb tb eq_refl). specialize (Hrb tb eq_refl).
    destruct (Z.gtb_spec (tb - rd k') 0), (Z.gtb_spec (tb - now) 0);
      try reflexivity; lia.
  - destruct (Z.gtb_spec (rd k - rd k') 0), (Z.gtb_spec (now - now) 0);
      try reflexivity; lia.
Qed.

(** X21: when the clock always reads later than the creation timestamps
    of the replica sets attributed to a deployment, the replica sets of
    its entry are in descending order of creation time, an undated replica
    set counting as created at any time [now] later than these
    timestamps. *)
Theorem generateDeploymentReplicaSetMap_clock_ahead :
  forall (deploymentList : list V1Deployment)
         (replicaSetList : option V1ReplicaSetList) (c : Clock)
         (entry : IDeploymentReplicaSetMap) (now : Z),
    In entry
       (fst (DeploymentsTable._generateDeploymentReplicaSetMap deploymentList
               replicaSetList c)) ->
    (forall replica,
        In replica
           (DeploymentsTable.filteredReplicas (deployment entry)
              replicaSetList) ->
        DeploymentsTable.createdBefore now replica
        /\ forall n, DeploymentsTable.createdBefore (readings c n) replica) ->
    StronglySorted
      (ArraySort.descending (DeploymentsTable.creationTimeAt now))
      (replicaSets entry).
Proof.
  intros deploymentList rsl c entry now Hin Hahead.
  apply pushEntries_In in Hin. destruct Hin as [[] | (c' & Hrd & Hrs)].
  rewrite Hrs.
  apply (sort_descending DeploymentsTable.byCreationTime byCreationTime_keeps
           (DeploymentsTable.creationTimeAt now)
           (fun r => DeploymentsTable.createdBefore now r
                     /\ forall n,
                          DeploymentsTable.createdBefore (readings c n) r)
           (readings c)).
  - intros a b c0 [Ha Hra] [Hb Hrb] Hc0.
    now apply byCreationTime_order with (rd := readings c).
  - apply Forall_forall. exact Hahead.
  - exact Hrd.
Qed.

Lemma generateDeploymentReplicaSetMap_clock_ahead_witness :
  StronglySorted (ArraySort.descending (DeploymentsTable.creationTimeAt 9000))
    [rsUndated; rsNewer; rsOlder].
Proof.
  apply (generateDeploymentReplicaSetMap_clock_ahead [d1]
           (Some (mkReplicaSetList [rsOlder; rsUndated; rsNewer]))
           frozenClock (mkEntry d1 [rsUndated; rsNewer; rsOlder]) 9000).
  - left. reflexivity.
  - simpl. intros replica [<- | [<- | [<- | []]]];
      (split; [| intros n]); intros t Ht; simpl in Ht;
      try discriminate; inversion Ht; lia.
Defined.



(* ================================================================== *)
(** ** The content of the pivot *)
(* ================================================================== *)

Lemma KubeResourceType_eqb_eq :
  forall a b, KubeResourceType_eqb a b = true <-> a = b.
Proof.
  intros [] []; simpl; split; intros H; try reflexivity; discriminate.
Qed.

Lemma indexOfFrom_absent :
  forall selections from resourceType,
    0 <= from ->
    (indexOfFrom from selections resourceType = -1
     <-> ~ In resourceType selections).
Proof.
  induction selections as [| s rest IH]; intros from t Hfrom; simpl.
  - split; auto.
  - destruct (KubeResourceType_eqb s t) eqn:Heq.
    + apply KubeResourceType_eqb_eq in Heq. split; [lia | intros H].
      exfalso. apply H. now left.
    + assert (Hne : s <> t).
      { intros ->. now rewrite (proj2 (KubeResourceType_eqb_eq t t)) in Heq. }
      rewrite IH by lia. split; intros H; [intros [? | ?] |]; tauto.
Qed.

Lemma In_KubeResourceType_dec :
  forall (t : KubeResourceType) l, In t l \/ ~ In t l.
Proof.
  intros t l. induction l as [| s l IH]; simpl; [now right |].
  destruct (KubeResourceType_eqb s t) eqn:Heq.
  - apply KubeResourceType_eqb_eq in Heq. now left; left.
  - destruct IH as [IH | IH]; [now left; right |].
    right. intros [-> | H]; [| contradiction].
    now rewrite (proj2 (KubeResourceType_eqb_eq t t)) in Heq.
Qed.

(** A component is shown when nothing is selected, or when its type is
    among the selections. *)
Lemma showComponent_iff :
  forall props resourceType,
    _showComponent props resourceType = true
    <-> (_getTypeFilterValue props = []
         \/ In resourceType (_getTypeFilterValue props)).
Proof.
  intros props t. unfold _showComponent.
  destruct (_getTypeFilterValue props) as [| s rest] eqn:Hsel.
  - simpl. tauto.
  - cbn [List.length Nat.ltb Nat.leb]. rewrite negb_true_iff, Z.eqb_neq.
    unfold indexOf. rewrite indexOfFrom_absent by lia.
    destruct (In_KubeResourceType_dec t (s :: rest)) as [Hin | Hout].
    + split; [now right | tauto].
    + split; [tauto | intros [H | H]; [discriminate | contradiction]].
Qed.

Lemma length_pos_iff :
  forall (A : Type) (l : list A), (0 <? List.length l)%nat = true <-> l <> [].
Proof.
  intros A [| x l]; simpl; split; intros H; try reflexivity;
    try discriminate; contradiction.
Qed.

Lemma rendersTable_div :
  forall learn nowl state props store resourceType,
    workloadResourceSize state <> 0 ->
    rendersTable resourceType (_getContent learn nowl state props store)
    = match resourceType with
      | Pods => (0 <? List.length (orphanPodsList state))%nat
                && _showComponent props Pods
      | other => _showComponent props other
      end.
Proof.
  intros learn nowl state props store t Hsize. unfold _getContent.
  destruct (Z.eqb_spec (workloadResourceSize state) 0) as [| _];
    [contradiction |].
  unfold rendersTable, renderIf.
  destruct t; simpl;
    destruct (_showComponent props Deployments),
             (_showComponent props DaemonSets),
             (_showComponent props StatefulSets),
             (_showComponent props Pods),
             (0 <? List.length (orphanPodsList state))%nat; reflexivity.
Qed.

(** C7, as stated, fails: with workloads found but no orphan pod, the
    Pods table is not rendered although Pods is selected. *)
Lemma getContent_pods_selected_not_rendered :
  ~ (forall (learn nowl : string) state props store resourceType,
       let selections := _getTypeFilterValue props in
       let content := _getContent learn nowl state props store in
       (selections = [] -> rendersTable resourceType content = true)
       /\ (selections <> [] ->
           (rendersTable resourceType content = true
            <-> In resourceType selections))).
Proof.
  intros H.
  destruct (H "Learn more" "No workloads" (mkState 3 []) (sampleProps [Pods])
              sampleStore Pods) as [_ Hsel].
  assert (Hcontra : false = true).
  { apply Hsel; [discriminate | now left]. }
  discriminate.
Qed.

(** C7, amended: a component is shown when the selection is empty or
    holds its type; once workloads were found, the Deployments, DaemonSets
    and StatefulSets tables are rendered exactly when their component is
    shown, and the Pods table exactly when it is shown and there are
    orphan pods; selecting only DaemonSets hides the three other tables
    whatever the data. *)
Theorem getContent_tables :
  forall (learn nowl : string) state props store,
    workloadResourceSize state <> 0 ->
    let selections := _getTypeFilterValue props in
    let content := _getContent learn nowl state props store in
    (forall resourceType,
        _showComponent props resourceType = true
        <-> (selections = [] \/ In resourceType selections))
    /\ (forall resourceType,
           rendersTable resourceType content = true
           <-> ((selections = [] \/ In resourceType selections)
                /\ (resourceType = Pods -> orphanPodsList state <> [])))
    /\ (selections = [DaemonSets] ->
        rendersTable Deployments content = false
        /\ rendersTable StatefulSets content = false
        /\ rendersTable Pods content = false
        /\ rendersTable DaemonSets content = true).
Proof.
  intros learn nowl state props store Hsize selections content.
  split; [intros t; apply showComponent_iff |].
  split.
  - intros t. unfold content. rewrite rendersTable_div by assumption.
    fold selections.
    destruct t;
      try (rewrite showComponent_iff; fold selections;
           split; [intros H; split; [exact H | discriminate] | tauto]).
    rewrite andb_true_iff, length_pos_iff, showComponent_iff.
    fold selections. split; [intros [Hp Hs] | intros [Hs Hp]]; auto.
  - intros Hsel. unfold content.
    rewrite !rendersTable_div by assumption.
    assert (Hshow : forall t, _showComponent props t
                              = KubeResourceType_eqb DaemonSets t).
    { intros t. unfold _showComponent. fold selections. rewrite Hsel.
      simpl. unfold indexOf. simpl. now destruct t. }
    rewrite !Hshow. simpl. rewrite andb_false_r. repeat split.
Qed.

Lemma getContent_tables_witness :
  rendersTable Deployments
    (_getContent "Learn more" "No workloads" (mkState 3 [])
       (sampleProps [DaemonSets]) sampleStore) = false.
Proof.
  apply (proj2 (proj2 (getContent_tables "Learn more" "No workloads"
                         (mkState 3 []) (sampleProps [DaemonSets])
                         sampleStore ltac:(discriminate)))).
  reflexivity.
Defined.

Lemma content_not_zero_data :
  forall (learn nowl : string) state props store,
    workloadResourceSize state <> 0 ->
    isZeroData (_getContent learn nowl state props store) = false.
Proof.
  intros learn nowl state props store Hsize. unfold _getContent.
  destruct (Z.eqb_spec (workloadResourceSize state) 0) as [| _];
    [contradiction | reflexivity].
Qed.

(** C8: with a workload resource size of zero the content is the default
    zero-data placeholder, with the documentation link and the
    "no workloads" text, and no table; with any other size the content is
    not the placeholder. *)
Theorem getContent_zero_data :
  forall (LearnMoreText NoWorkLoadsText : string) state props store,
    let content :=
      _getContent LearnMoreText NoWorkLoadsText state props store in
    (workloadResourceSize state = 0 ->
     content
     = DefaultZeroData
         "https://kubernetes.io/docs/concepts/workloads/pods/pod/"
         LearnMoreText NoWorkLoadsText NoWorkLoadsText
     /\ forall resourceType, rendersTable resourceType content = false)
    /\ (workloadResourceSize state <> 0 ->
        isZeroData content = false
        /\ exists children, content = Div children).
Proof.
  intros learn nowl state props store content. unfold content, _getContent.
  split.
  - intros ->. simpl. split; reflexivity.
  - intros Hsize.
    destruct (Z.eqb_spec (workloadResourceSize state) 0) as [| _];
      [contradiction |].
    split; [reflexivity | eexists; reflexivity].
Qed.

Lemma getContent_zero_data_witness :
  _getContent "Learn more" "No workloads" initialState (sampleProps [])
    sampleStore
  = DefaultZeroData "https://kubernetes.io/docs/concepts/workloads/pods/pod/"
      "Learn more" "No workloads" "No workloads".
Proof.
  apply (proj1 (getContent_zero_data "Learn more" "No workloads" initialState
                  (sampleProps []) sampleStore)).
  reflexivity.
Defined.

(** ** The workload resource size over the life of the pivot *)

Lemma onPodsFetched_size :
  forall store state,
    workloadResourceSize (_onPodsFetched store state)
    = workloadResourceSize state.
Proof. reflexivity. Qed.

Lemma onDataFound_positive :
  forall store state,
    0 < workloadResourceSize state -> _onDataFound store state = state.
Proof.
  intros store state Hpos. unfold _onDataFound.
  destruct (Z.leb_spec (workloadResourceSize state) 0) as [Hle | _];
    [lia | reflexivity].
Qed.

Lemma dispatch_positive :
  forall state e,
    0 < workloadResourceSize state ->
    workloadResourceSize (dispatch state e) = workloadResourceSize state.
Proof.
  intros state [[] store] Hpos; unfold dispatch; simpl.
  - reflexivity.
  - now rewrite onDataFound_positive.
Qed.

Lemma run_positive :
  forall events state,
    0 < workloadResourceSize state ->
    workloadResourceSize (run state events) = workloadResourceSize state.
Proof.
  unfold run. induction events as [| e events IH]; intros state Hpos; simpl.
  - reflexivity.
  - rewrite IH by (rewrite dispatch_positive; assumption).
    now apply dispatch_positive.
Qed.

(** C10: the handler of [WorkloadsFoundEvent] writes the size only when
    the current size is at most zero and the reported one is positive;
    so, once the size is positive, no sequence of store events changes
    it, whatever sizes the store reports later, and the content is never
    the zero-data placeholder again. *)
Theorem workloadResourceSize_settles :
  forall (state : IWorkloadsPivotState),
    (forall store,
        (workloadResourceSize state <= 0 /\ 0 < getWorkloadSize store ->
         workloadResourceSize (_onDataFound store state)
         = getWorkloadSize store)
        /\ (~ (workloadResourceSize state <= 0 /\ 0 < getWorkloadSize store) ->
            _onDataFound store state = state))
    /\ (0 < workloadResourceSize state ->
        forall events,
          workloadResourceSize (run state events)
          = workloadResourceSize state
          /\ forall (learn nowl : string) props store,
               isZeroData (_getContent learn nowl (run state events) props
                             store) = false).
Proof.
  intros state. split.
  - intros store. unfold _onDataFound.
    destruct (Z.leb_spec (workloadResourceSize state) 0) as [Hle | Hgt];
      destruct (Z.gtb_spec (getWorkloadSize store) 0) as [Hw | Hw]; simpl;
      split; try reflexivity; try lia; intros H; exfalso; apply H; lia.
  - intros Hpos events.
    pose proof (run_positive events state Hpos) as Hrun.
    split; [exact Hrun |].
    intros learn nowl props store.
    apply (content_not_zero_data learn nowl). lia.
Qed.

Lemma workloadResourceSize_settles_witness :
  workloadResourceSize
    (run (mkState 3 [])
         [(WorkloadsFoundEvent, mkStore None 0);
          (WorkloadPodsFetchedEvent, mkStore None 7);
          (WorkloadsFoundEvent, mkStore None 7)]) = 3.
Proof.
  apply (proj2 (workloadResourceSize_settles (mkState 3 []))); simpl; lia.
Defined.

(* ================================================================== *)
(** ** Runs on sample data *)
(* ================================================================== *)

Example toLowerCase_uid : toLowerCase "A1B2-Cd" = "a1b2-cd".
Proof. reflexivity. Qed.

Example numberToString_0 : numberToString 0 = "0".
Proof. reflexivity. Qed.

Example format_key : format "dc-{0}" ["ns"] = "dc-ns".
Proof. reflexivity. Qed.

Example format_literal_brace : format "{1{0}}" ["a"] = "{1a}".
Proof. reflexivity. Qed.

(** The deployment [d1] with [rs1] (3 of 3, created later) and [rs2]
    (1 of 3, created earlier) yields the rows of [rs1] and [rs2] in that
    order, whatever the order of the replica set list. *)
Example d1_entry :
  fst (DeploymentsTable._generateDeploymentReplicaSetMap [d1]
         (Some (mkReplicaSetList [rs2; rs1])) frozenClock)
  = [mkEntry d1 [rs1; rs2]].
Proof. reflexivity. Qed.

Example d1_rows :
  match DeploymentsTable._getDeploymentReplicaSetItems samplePipelineText d1
          [rs1; rs2] with
  | Ok rows => map (fun row => (replicaSetName row, pods row, statusProps row))
                   rows
  | TypeError => []
  end
  = [(Some "rs1", Some "3/3", Some Success);
     (Some "rs2", Some "1/3", Some Running)].
Proof. reflexivity. Qed.

Example daemonSets_only :
  _getContent "Learn more" "No workloads" (mkState 3 [mkPod (sampleMeta "p" "ns" "p1" None None)])
    (sampleProps [DaemonSets]) sampleStore
  = Div [None; Some (DaemonSetTable "ds-list-ns" None); None; None].
Proof. reflexivity. Qed.

(* ================================================================== *)
(** * Further properties of the rows, the map and the views *)
(* ================================================================== *)

(** ** The rows of one deployment, field by field *)

Section RowsFacts.
Variable getPipelineText : option (list (string * string)) -> string.
Variable deployment : V1Deployment.

(** The row at a position is the one built for the replica set at that
    position. *)
Lemma items_nth_built :
  forall replicaSets items index row replica,
    DeploymentsTable._getDeploymentReplicaSetItems getPipelineText deployment
      replicaSets = Ok items ->
    nth_error items index = Some row ->
    nth_error replicaSets index = Some replica ->
    DeploymentsTable._getDeploymentReplicaSetItem getPipelineText deployment
      replica index (List.length replicaSets) = Ok row.
Proof.
  intros replicaSets items index row replica H Hrow Hrs.
  destruct (pushItems_rows getPipelineText deployment _ _ _ _ _ H)
    as (rows & Hitems & _ & Hrows).
  simpl in Hitems; subst rows.
  destruct (Hrows index replica Hrs) as (row' & Hrow' & Hbuilt).
  simpl in Hbuilt. congruence.
Qed.

Lemma item_built_container :
  forall replica index len row,
    DeploymentsTable._getDeploymentReplicaSetItem getPipelineText deployment
      replica index len = Ok row ->
    containers (template_spec (template (rs_spec replica))) <> [].
Proof.
  intros replica index len row.
  unfold DeploymentsTable._getDeploymentReplicaSetItem.
  destruct (containers _); [discriminate | discriminate].
Qed.

Lemma items_length :
  forall replicaSets items,
    DeploymentsTable._getDeploymentReplicaSetItems getPipelineText deployment
      replicaSets = Ok items ->
    List.length items = List.length replicaSets.
Proof.
  intros replicaSets items H.
  destruct (pushItems_rows getPipelineText deployment _ _ _ _ _ H)
    as (rows & Hitems & Hlen & _).
  simpl in Hitems. now subst rows.
Qed.

End RowsFacts.

(** X1: the rows of a deployment are returned exactly when every
    replica set has at least one container; otherwise the read of
    [containers[0].image] throws. *)
Theorem getDeploymentReplicaSetItems_returns_iff :
  forall (getPipelineText : option (list (string * string)) -> string)
         (deployment : V1Deployment) (replicaSets : list V1ReplicaSet),
    (exists items,
        DeploymentsTable._getDeploymentReplicaSetItems getPipelineText
          deployment replicaSets = Ok items)
    <-> Forall (fun replica =>
                  containers (template_spec (template (rs_spec replica)))
                  <> [])
               replicaSets.
Proof.
  intros gp deployment replicaSets. split.
  - intros [items H]. apply Forall_forall. intros replica Hin.
    destruct (In_nth_error _ _ Hin) as [index Hrs].
    destruct (pushItems_rows gp deployment _ _ _ _ _ H)
      as (rows & _ & _ & Hrows).
    destruct (Hrows index replica Hrs) as (row & _ & Hbuilt).
    now apply item_built_container in Hbuilt.
  - intros Hall. now apply pushItems_returns.
Qed.

(** X2: the row at a position describes the replica set at that
    position: its ids, its name, its counts, the image of its first
    container and its creation timestamp, with the deployment attached. *)
Theorem getDeploymentReplicaSetItems_row_of_replica :
  forall (getPipelineText : option (list (string * string)) -> string)
         (deployment : V1Deployment) (replicaSets : list V1ReplicaSet)
         (items : list IDeploymentReplicaSetItem)
         (index : nat) (row : IDeploymentReplicaSetItem)
         (replica : V1ReplicaSet),
    DeploymentsTable._getDeploymentReplicaSetItems getPipelineText deployment
      replicaSets = Ok items ->
    nth_error items index = Some row ->
    nth_error replicaSets index = Some replica ->
    deploymentId row = Some (uid (dep_metadata deployment))
    /\ item_deployment row = Some deployment
    /\ replicaSetId row = Some (uid (rs_metadata replica))
    /\ replicaSetName row = Some (name (rs_metadata replica))
    /\ creationTimeStamp row = creationTimestamp (rs_metadata replica)
    /\ pods row
       = Some (DeploymentsTable._getPodsText
                 (availableReplicas (rs_status replica))
                 (replicas (rs_status replica)))
    /\ statusProps row
       = DeploymentsTable._getPodsStatusProps
           (availableReplicas (rs_status replica))
           (replicas (rs_status replica))
    /\ exists first others,
         containers (template_spec (template (rs_spec replica)))
         = first :: others
         /\ item_image row = image first.
Proof.
  intros gp deployment replicaSets items index row replica H Hrow Hrs.
  pose proof (items_nth_built gp deployment _ _ _ _ _ H Hrow Hrs) as Hbuilt.
  unfold DeploymentsTable._getDeploymentReplicaSetItem in Hbuilt.
  destruct (containers (template_spec (template (rs_spec replica))))
    as [| first others]; [discriminate |].
  inversion Hbuilt; subst row; simpl.
  repeat split. now exists first, others.
Qed.

Lemma getDeploymentReplicaSetItems_row_of_replica_witness :
  exists row,
    nth_error
      (match DeploymentsTable._getDeploymentReplicaSetItems samplePipelineText
               d1 [rs1; rs2] with
       | Ok rows => rows
       | TypeError => []
       end) 1 = Some row
    /\ replicaSetId row = Some "r2".
Proof.
  eexists. split; [reflexivity |].
  apply (getDeploymentReplicaSetItems_row_of_replica samplePipelineText d1
           [rs1; rs2] _ 1%nat _ rs2 eq_refl eq_refl eq_refl).
Defined.

(** X3: the name of the deployment is on the first row only, the later
    rows having an empty name, and the row border is on the last row
    only. *)
Theorem getDeploymentReplicaSetItems_first_and_last :
  forall (getPipelineText : option (list (string * string)) -> string)
         (deployment : V1Deployment) (replicaSets : list V1ReplicaSet)
         (items : list IDeploymentReplicaSetItem)
         (index : nat) (row : IDeploymentReplicaSetItem),
    DeploymentsTable._getDeploymentReplicaSetItems getPipelineText deployment
      replicaSets = Ok items ->
    nth_error items index = Some row ->
    item_name row
    = Some (if (index =? 0)%nat then name (dep_metadata deployment) else "")
    /\ exists border,
         showRowBorder row = Some border
         /\ (border = true <-> S index = List.length items).
Proof.
  intros gp deployment replicaSets items index row H Hrow.
  pose proof (items_length gp deployment _ _ H) as Hlen.
  destruct (nth_error replicaSets index) as [replica |] eqn:Hrs.
  - pose proof (items_nth_built gp deployment _ _ _ _ _ H Hrow Hrs) as Hbuilt.
    unfold DeploymentsTable._getDeploymentReplicaSetItem in Hbuilt.
    destruct (containers (template_spec (template (rs_spec replica))));
      [discriminate |].
    inversion Hbuilt; subst row; simpl. split.
    + now destruct index.
    + eexists. split; [reflexivity |].
      rewrite Nat.eqb_eq, Hlen. lia.
  - apply nth_error_None in Hrs.
    assert (index < List.length items)%nat
      by (apply nth_error_Some; congruence).
    lia.
Qed.

Lemma getDeploymentReplicaSetItems_first_and_last_witness :
  exists row,
    nth_error
      (match DeploymentsTable._getDeploymentReplicaSetItems samplePipelineText
               d1 [rs1; rs2] with
       | Ok rows => rows
       | TypeError => []
       end) 1 = Some row
    /\ item_name row = Some "".
Proof.
  eexists. split; [reflexivity |].
  apply (getDeploymentReplicaSetItems_first_and_last samplePipelineText d1
           [rs1; rs2] _ 1%nat _ eq_refl eq_refl).
Defined.

(** X4: the kind of a row is never empty: it is the kind of the replica
    set when this one is a non-empty string, and "ReplicaSet" when it is
    absent or empty. *)
Theorem getDeploymentReplicaSetItem_kind :
  forall (getPipelineText : option (list (string * string)) -> string)
         (deployment : V1Deployment) (replica : V1ReplicaSet)
         (index len : nat) (row : IDeploymentReplicaSetItem),
    DeploymentsTable._getDeploymentReplicaSetItem getPipelineText deployment
      replica index len = Ok row ->
    exists kind,
      item_kind row = Some kind
      /\ kind <> ""
      /\ (forall k, rs_kind replica = Some k -> k <> "" -> kind = k)
      /\ (rs_kind replica = None \/ rs_kind replica = Some "" ->
          kind = "ReplicaSet").
Proof.
  intros gp deployment replica index len row.
  unfold DeploymentsTable._getDeploymentReplicaSetItem.
  destruct (containers _); [discriminate |].
  intros H; inversion H; subst row; simpl.
  eexists. split; [reflexivity |]. unfold orElse.
  destruct (rs_kind replica) as [k |].
  - destruct (String.eqb_spec k "") as [-> | Hk].
    + split; [discriminate |]. split; [| reflexivity].
      intros k' Hk' Hne. inversion Hk'; subst. contradiction.
    + split; [exact Hk |]. split.
      * intros k' Hk' _. now inversion Hk'.
      * intros [Hn | Hn]; [discriminate | inversion Hn; contradiction].
  - split; [discriminate |]. split; [discriminate | reflexivity].
Qed.

Lemma getDeploymentReplicaSetItem_kind_witness :
  exists kind, kind <> "".
Proof.
  destruct (getDeploymentReplicaSetItem_kind samplePipelineText d1 rs1 0 2 _
              eq_refl) as (kind & _ & Hne & _).
  exists kind. exact Hne.
Defined.

Lemma append_slash_not_empty :
  forall a b : string, a ++ String "/" b <> "".
Proof. intros [| c a] b; discriminate. Qed.

(** X5: a row has a status indicator exactly when it has a pods text. *)
Theorem podsText_empty_iff_no_status :
  forall availableReplicas replicas : option Z,
    DeploymentsTable._getPodsText availableReplicas replicas = ""
    <-> DeploymentsTable._getPodsStatusProps availableReplicas replicas
        = None.
Proof.
  intros [a |] [r |]; simpl; try tauto.
  destruct (r >? 0)%Z.
  - unfold format. simpl. rewrite append_nil_r. split.
    + intros H. now apply append_slash_not_empty in H.
    + destruct (a <? r)%Z; discriminate.
  - tauto.
Qed.

(** ** Selection, from the rows back to the replica sets *)

Lemma find_In_some :
  forall (A : Type) (f : A -> bool) (l : list A) (x : A),
    In x l -> f x = true -> exists y, find f l = Some y.
Proof.
  intros A f l x Hin Hf.
  destruct (find f l) as [y |] eqn:Hfind; [now exists y |].
  rewrite (find_none _ _ Hfind x Hin) in Hf. discriminate.
Qed.

(** X6: activating a row built for a stored replica set selects a stored
    replica set with the same uid up to case, and that very replica set
    when no other stored one has its uid up to case. *)
Theorem activating_built_row_selects_its_replica :
  forall (getPipelineText : option (list (string * string)) -> string)
         (ReplicaSetKey : string)
         (state : DeploymentsTable.IDeploymentsTableState)
         (deployment : V1Deployment) (replicaSets : list V1ReplicaSet)
         (items : list IDeploymentReplicaSetItem)
         (index : nat) (row : IDeploymentReplicaSetItem)
         (replica : V1ReplicaSet),
    let stored :=
      DeploymentsTable.itemsOrEmpty (DeploymentsTable.replicaSetList state) in
    DeploymentsTable._getDeploymentReplicaSetItems getPipelineText deployment
      replicaSets = Ok items ->
    nth_error items index = Some row ->
    nth_error replicaSets index = Some replica ->
    In replica stored ->
    uid (dep_metadata deployment) <> "" ->
    uid (rs_metadata replica) <> "" ->
    exists selected,
      DeploymentsTable._openDeploymentItem ReplicaSetKey state (Some row)
      = [DeploymentsTable.mkPayload selected true ReplicaSetKey]
      /\ In selected stored
      /\ toLowerCase (uid (rs_metadata selected))
         = toLowerCase (uid (rs_metadata replica))
      /\ ((forall other,
              In other stored ->
              toLowerCase (uid (rs_metadata other))
              = toLowerCase (uid (rs_metadata replica)) ->
              other = replica) ->
          selected = replica).
Proof.
  intros gp key state deployment replicaSets items index row replica stored
    H Hrow Hrs Hin Hd Hr.
  pose proof (items_nth_built gp deployment _ _ _ _ _ H Hrow Hrs) as Hbuilt.
  unfold DeploymentsTable._getDeploymentReplicaSetItem in Hbuilt.
  destruct (containers (template_spec (template (rs_spec replica))));
    [discriminate |].
  inversion Hbuilt; subst row; clear Hbuilt.
  unfold DeploymentsTable._openDeploymentItem,
    DeploymentsTable._getSelectedReplicaSet.
  cbn [deploymentId replicaSetId].
  rewrite !truthyString_true by assumption. cbn [andb].
  rewrite nth_error_filter_0. fold stored.
  destruct (find_In_some _
              (fun r => toLowerCase (uid (rs_metadata r))
                        =? toLowerCase (uid (rs_metadata replica)))
              stored replica Hin (String.eqb_refl _)) as [selected Hfind].
  rewrite Hfind. exists selected.
  apply find_some in Hfind. destruct Hfind as [Hsel Heq].
  apply String.eqb_eq in Heq.
  repeat split; auto.
Qed.

Lemma activating_built_row_selects_its_replica_witness :
  DeploymentsTable._openDeploymentItem "ReplicaSet" sampleTableState
    (nth_error
       (match DeploymentsTable._getDeploymentReplicaSetItems
                samplePipelineText d1 [rs1; rs2] with
        | Ok rows => rows
        | TypeError => []
        end) 1)
  = [DeploymentsTable.mkPayload rs2 true "ReplicaSet"].
Proof.
  destruct (activating_built_row_selects_its_replica samplePipelineText
              "ReplicaSet" sampleTableState d1 [rs1; rs2] _ 1%nat _ rs2
              eq_refl eq_refl eq_refl)
    as (selected & Hopen & _ & _ & Hsame).
  - right. left. reflexivity.
  - discriminate.
  - discriminate.
  - rewrite Hsame in Hopen; [exact Hopen |].
    intros other [<- | [<- | []]] Huid; [discriminate | reflexivity].
Defined.

(** X7: a selected replica set is always one of the stored ones, with
    the uid asked for up to case, and is only found for an item whose two
    ids are non-empty; before the replica sets are fetched nothing is
    selected. *)
Theorem getSelectedReplicaSet_sound :
  forall (state : DeploymentsTable.IDeploymentsTableState)
         (selectedItem : option IDeploymentReplicaSetItem)
         (selected : V1ReplicaSet),
    DeploymentsTable._getSelectedReplicaSet state selectedItem
    = Some selected ->
    In selected
       (DeploymentsTable.itemsOrEmpty (DeploymentsTable.replicaSetList state))
    /\ DeploymentsTable.replicaSetList state <> None
    /\ exists item dId rId,
         selectedItem = Some item
         /\ deploymentId item = Some dId /\ dId <> ""
         /\ replicaSetId item = Some rId /\ rId <> ""
         /\ toLowerCase (uid (rs_metadata selected)) = toLowerCase rId.
Proof.
  intros state [item |] selected; simpl; [| discriminate].
  destruct (deploymentId item) as [dId |] eqn:HdId; simpl; [| discriminate].
  destruct (String.eqb_spec dId "") as [| Hd]; simpl; [discriminate |].
  destruct (replicaSetId item) as [rId |] eqn:HrId; simpl; [| discriminate].
  destruct (String.eqb_spec rId "") as [| Hr]; simpl; [discriminate |].
  change (match filter ?f ?l with [] => None | x :: _ => Some x end)
    with (nth_error (filter f l) 0).
  rewrite nth_error_filter_0. intros Hfind.
  apply find_some in Hfind. destruct Hfind as [Hin Heq].
  apply String.eqb_eq in Heq.
  split; [exact Hin |]. split.
  - intros Hnone. rewrite Hnone in Hin. exact Hin.
  - exists item, dId, rId. repeat split; assumption.
Qed.

Lemma getSelectedReplicaSet_sound_witness :
  In rs2 [rs1; rs2].
Proof.
  apply (getSelectedReplicaSet_sound sampleTableState (Some sampleSelected)
           rs2 eq_refl).
Defined.

(** X8: the deployment id of the item has to be present, but its value
    is never used: two items with the same replica set id select the same
    replica set. *)
Theorem getSelectedReplicaSet_ignores_deployment :
  forall (state : DeploymentsTable.IDeploymentsTableState)
         (a b : IDeploymentReplicaSetItem),
    truthyString (deploymentId a) = true ->
    truthyString (deploymentId b) = true ->
    replicaSetId a = replicaSetId b ->
    DeploymentsTable._getSelectedReplicaSet state (Some a)
    = DeploymentsTable._getSelectedReplicaSet state (Some b).
Proof.
  intros state a b Ha Hb Hid.
  unfold DeploymentsTable._getSelectedReplicaSet.
  rewrite Ha, Hb, <- Hid.
  destruct (deploymentId a), (deploymentId b); try discriminate.
  reflexivity.
Qed.

Lemma getSelectedReplicaSet_ignores_deployment_witness :
  DeploymentsTable._getSelectedReplicaSet sampleTableState
    (Some sampleSelected)
  = DeploymentsTable._getSelectedReplicaSet sampleTableState
      (Some sampleSelectedElsewhere).
Proof.
  apply getSelectedReplicaSet_ignores_deployment; reflexivity.
Defined.

(** ** The map, whatever the clock reads *)

(** X9: whatever the clock reads, the replica sets of an entry are a
    rearrangement of the replica sets of the list that are associated with
    its deployment: none is lost, none is added, and none of another
    deployment is attributed. *)
Theorem generateDeploymentReplicaSetMap_attributes_owned :
  forall (deploymentList : list V1Deployment)
         (replicaSetList : option V1ReplicaSetList) (c : Clock)
         (entry : IDeploymentReplicaSetMap),
    In entry
       (fst (DeploymentsTable._generateDeploymentReplicaSetMap deploymentList
               replicaSetList c)) ->
    Permutation
      (DeploymentsTable.filteredReplicas (deployment entry) replicaSetList)
      (replicaSets entry)
    /\ forall replica,
         In replica (replicaSets entry)
         <-> (In replica (DeploymentsTable.itemsOrEmpty replicaSetList)
              /\ truthy (DeploymentsTable._isReplicaSetForDeployment
                           (deployment entry) replica) = true).
Proof.
  intros deploymentList rsl c entry Hin.
  apply pushEntries_In in Hin. destruct Hin as [[] | (c' & _ & Hrs)].
  assert (Hperm :
            Permutation
              (DeploymentsTable.filteredReplicas (deployment entry) rsl)
              (replicaSets entry)).
  { rewrite Hrs. apply sort_Permutation. }
  split; [exact Hperm |].
  intros replica.
  unfold DeploymentsTable.filteredReplicas in Hperm.
  pose proof (filter_In
                (fun r => truthy (DeploymentsTable._isReplicaSetForDeployment
                                    (deployment entry) r))
                replica (DeploymentsTable.itemsOrEmpty rsl)) as Hfilter.
  cbv beta in Hfilter. rewrite <- Hfilter. split; intros H.
  - eapply Permutation_in; [apply Permutation_sym; exact Hperm | exact H].
  - eapply Permutation_in; [exact Hperm | exact H].
Qed.

Lemma generateDeploymentReplicaSetMap_attributes_owned_witness :
  Permutation
    (DeploymentsTable.filteredReplicas d1
       (Some (mkReplicaSetList [rsUndated; rsOlder; rsNewer])))
    [rsOlder; rsUndated; rsNewer].
Proof.
  apply (generateDeploymentReplicaSetMap_attributes_owned [d1]
           (Some (mkReplicaSetList [rsUndated; rsOlder; rsNewer]))
           jumpingClock (mkEntry d1 [rsOlder; rsUndated; rsNewer])).
  left. reflexivity.
Defined.

(** X10: a replica set is associated with two deployments only when
    these have the same namespace and the same uid up to case. *)
Theorem isReplicaSetForDeployment_one_owner :
  forall (a b : V1Deployment) (replica : V1ReplicaSet),
    truthy (DeploymentsTable._isReplicaSetForDeployment a replica) = true ->
    truthy (DeploymentsTable._isReplicaSetForDeployment b replica) = true ->
    toLowerCase (namespace (dep_metadata a))
    = toLowerCase (namespace (dep_metadata b))
    /\ toLowerCase (uid (dep_metadata a))
       = toLowerCase (uid (dep_metadata b)).
Proof.
  intros a b replica.
  unfold DeploymentsTable._isReplicaSetForDeployment.
  destruct (String.eqb_spec (toLowerCase (namespace (rs_metadata replica)))
              (toLowerCase (namespace (dep_metadata a)))) as [Ha |];
    [| discriminate].
  destruct (String.eqb_spec (toLowerCase (namespace (rs_metadata replica)))
              (toLowerCase (namespace (dep_metadata b)))) as [Hb |];
    [| intros _; discriminate].
  destruct (ownerReferences (rs_metadata replica)) as [[| first others] |];
    simpl; try discriminate.
  rewrite !String.eqb_eq. intros Hua Hub. split; congruence.
Qed.

Lemma isReplicaSetForDeployment_one_owner_witness :
  toLowerCase (uid (dep_metadata d1)) = toLowerCase "u1".
Proof.
  apply (isReplicaSetForDeployment_one_owner d1
           (mkDeployment (sampleMeta "d1-again" "ns" "u1" None None)) rs1);
    reflexivity.
Defined.

(** When the comparator does not touch the clock on the elements of [P],
    neither does the sort. *)
Section SortWithoutClock.
Context {A : Type}.
Variable comparefn : A -> A -> Timed Z.
Variable key : A -> Z.
Variable P : A -> Prop.
Hypothesis comparefn_pure :
  forall a b c, P a -> P b -> comparefn a b c = ((key b - key a)%Z, c).

Lemma insert_without_clock :
  forall element sorted c,
    P element -> Forall P sorted ->
    ArraySort.insert comparefn element sorted c
    = (ArraySort.insertByKey key element sorted, c).
Proof.
  intros element sorted c He.
  induction sorted as [| tmp before IH]; intros Hs; simpl.
  - reflexivity.
  - apply Forall_cons_iff in Hs. destruct Hs as [Htmp Hbefore].
    unfold bind. rewrite comparefn_pure by assumption.
    destruct (key element - key tmp >? 0)%Z; [| reflexivity].
    now rewrite IH.
Qed.

Lemma insertByKey_Forall :
  forall element sorted,
    P element -> Forall P sorted ->
    Forall P (ArraySort.insertByKey key element sorted).
Proof.
  intros element sorted He Hs. apply Forall_forall. intros x Hx.
  apply insertByKey_In in Hx. destruct Hx as [-> | Hx]; [exact He |].
  rewrite Forall_forall in Hs. now apply Hs.
Qed.

Lemma insertAll_without_clock :
  forall from sorted c,
    Forall P from -> Forall P sorted ->
    ArraySort.insertAll comparefn from sorted c
    = (ArraySort.insertAllByKey key from sorted, c).
Proof.
  induction from as [| element rest IH]; intros sorted c Hf Hs; simpl.
  - reflexivity.
  - apply Forall_cons_iff in Hf. destruct Hf as [He Hrest].
    unfold bind. rewrite insert_without_clock by assumption.
    apply IH; [exact Hrest | now apply insertByKey_Forall].
Qed.

Lemma sort_without_clock :
  forall a c,
    Forall P a ->
    ArraySort.sort comparefn a c = (ArraySort.sortByKey key a, c).
Proof.
  intros a c Ha. unfold ArraySort.sort, bind.
  now rewrite insertAll_without_clock by (assumption || constructor).
Qed.

End SortWithoutClock.

Lemma byCreationTime_dated :
  forall a b c,
    creationTimestamp (rs_metadata a) <> None ->
    creationTimestamp (rs_metadata b) <> None ->
    DeploymentsTable.byCreationTime a b c
    = (timestampOrZero b - timestampOrZero a, c).
Proof.
  intros a b c Ha Hb.
  unfold DeploymentsTable.byCreationTime, DeploymentsTable._getCreationTime,
    timestampOrZero, DeploymentsTable.creationTimeAt, bind.
  destruct (creationTimestamp (rs_metadata a)); [| contradiction].
  destruct (creationTimestamp (rs_metadata b)); [| contradiction].
  reflexivity.
Qed.

(** X11: when every replica set of the list carries a creation
    timestamp, the map is computed without reading the clock: the entry of
    each deployment holds its replica sets sorted by timestamp, and the
    clock is left as it was. *)
Theorem generateDeploymentReplicaSetMap_dated :
  forall (deploymentList : list V1Deployment)
         (replicaSetList : option V1ReplicaSetList) (c : Clock),
    Forall (fun replica => creationTimestamp (rs_metadata replica) <> None)
           (DeploymentsTable.itemsOrEmpty replicaSetList) ->
    DeploymentsTable._generateDeploymentReplicaSetMap deploymentList
      replicaSetList c
    = (map (fun deployment =>
              mkEntry deployment
                (ArraySort.sortByKey timestampOrZero
                   (DeploymentsTable.filteredReplicas deployment
                      replicaSetList)))
           deploymentList,
       c).
Proof.
  intros deploymentList rsl c Hdated.
  unfold DeploymentsTable._generateDeploymentReplicaSetMap.
  change (map _ deploymentList)
    with ([] ++ map (fun deployment =>
                       mkEntry deployment
                         (ArraySort.sortByKey timestampOrZero
                            (DeploymentsTable.filteredReplicas deployment
                               rsl)))
                    deploymentList)%list.
  generalize (@nil IDeploymentReplicaSetMap) as acc.
  induction deploymentList as [| d rest IH]; intros acc; simpl.
  - now rewrite app_nil_r.
  - unfold bind.
    rewrite (sort_without_clock DeploymentsTable.byCreationTime
               timestampOrZero
               (fun r => creationTimestamp (rs_metadata r) <> None)).
    + rewrite IH, <- app_assoc. reflexivity.
    + intros a b c0 Ha Hb. now apply byCreationTime_dated.
    + unfold DeploymentsTable.filteredReplicas.
      apply Forall_forall. intros r Hr. apply filter_In in Hr.
      rewrite Forall_forall in Hdated. now apply Hdated.
Qed.

Lemma generateDeploymentReplicaSetMap_dated_witness :
  DeploymentsTable._generateDeploymentReplicaSetMap [d1; d2]
    (Some (mkReplicaSetList [rs2; rs1])) jumpingClock
  = ([mkEntry d1 [rs1; rs2]; mkEntry d2 []], jumpingClock).
Proof.
  apply (generateDeploymentReplicaSetMap_dated [d1; d2]
           (Some (mkReplicaSetList [rs2; rs1])) jumpingClock).
  repeat constructor; discriminate.
Defined.

(** ** The tables rendered by DeploymentsTable *)

Section ViewFacts.
Variable getPipelineText : option (list (string * string)) -> string.

Lemma items_throw_iff :
  forall deployment replicaSets,
    DeploymentsTable._getDeploymentReplicaSetItems getPipelineText deployment
      replicaSets = TypeError
    <-> exists replica,
          In replica replicaSets
          /\ containers (template_spec (template (rs_spec replica))) = [].
Proof.
  intros deployment replicaSets. split.
  - intros Hthrow.
    assert (Hex : Exists (fun r => containers
                                     (template_spec (template (rs_spec r)))
                                   = []) replicaSets
                  \/ Forall (fun r => containers
                                        (template_spec (template (rs_spec r)))
                                      <> []) replicaSets).
    { clear Hthrow. induction replicaSets as [| r rest IH].
      - right. constructor.
      - destruct (containers (template_spec (template (rs_spec r))))
          as [| c0 cs] eqn:Hc.
        + left. now constructor.
        + destruct IH as [IH | IH].
          * left. now apply Exists_cons_tl.
          * right. constructor; [rewrite Hc; discriminate | exact IH]. }
    destruct Hex as [Hex | Hall].
    + apply Exists_exists in Hex. exact Hex.
    + destruct (pushItems_returns getPipelineText deployment
                  (List.length replicaSets) replicaSets 0 [] Hall)
        as [items Hok].
      unfold DeploymentsTable._getDeploymentReplicaSetItems in Hthrow.
      congruence.
  - intros (replica & Hin & Hnone).
    destruct (DeploymentsTable._getDeploymentReplicaSetItems getPipelineText
                deployment replicaSets) as [items |] eqn:H; [| reflexivity].
    destruct (In_nth_error _ _ Hin) as [index Hrs].
    destruct (pushItems_rows getPipelineText deployment _ _ _ _ _ H)
      as (rows & _ & _ & Hrows).
    destruct (Hrows index replica Hrs) as (row & _ & Hbuilt).
    apply item_built_container in Hbuilt. contradiction.
Qed.

(** The class of the table at an index. *)
Lemma columnClassName_at :
  forall index,
    DeploymentsTableView.css
      ["list-content"; "depth-16";
       if (0 <? index)%nat then "replica-with-pod-list" else ""]
    = if (index =? 0)%nat then "list-content depth-16"
      else "list-content depth-16 replica-with-pod-list".
Proof. intros [| index]; reflexivity. Qed.

Lemma format_dep_key :
  forall s, format "dep-{0}" [s] = "dep-" ++ s.
Proof. intros s. unfold format. simpl. now rewrite append_nil_r. Qed.

(** The loop appends one table per entry, the table of the entry at
    position [j] being built with index [index + j]. *)
Lemma pushTables_tables :
  forall entries index acc tables,
    DeploymentsTableView.pushTables getPipelineText index entries acc
    = Ok tables ->
    exists built,
      tables = (acc ++ built)%list
      /\ map DeploymentsTableView.headingOf built = map deployment entries
      /\ forall j table,
           nth_error built j = Some table ->
           exists entry,
             nth_error entries j = Some entry
             /\ DeploymentsTableView.key table
                = "dep-" ++ numberToString (Z.of_nat (index + j))
             /\ DeploymentsTableView.className table
                = (if (index + j =? 0)%nat then "list-content depth-16"
                   else "list-content depth-16 replica-with-pod-list")
             /\ DeploymentsTable._getDeploymentReplicaSetItems
                  getPipelineText (deployment entry) (replicaSets entry)
                = Ok (DeploymentsTableView.items table).
Proof.
  induction entries as [| entry rest IH]; intros index acc tables H;
    simpl in H.
  - inversion H; subst. exists []. rewrite app_nil_r.
    repeat split. intros [| j] t Hj; discriminate.
  - destruct (DeploymentsTable._getDeploymentReplicaSetItems getPipelineText
                (deployment entry) (replicaSets entry)) as [rows |] eqn:Hrows;
      [| discriminate].
    destruct (IH _ _ _ H) as (built & Htables & Hheads & Hbuilt).
    eexists (_ :: built). rewrite <- app_assoc in Htables.
    split; [exact Htables |]. split; [simpl; now rewrite Hheads |].
    intros [| j] table Hj; simpl in Hj.
    + inversion Hj; subst table. exists entry. simpl.
      rewrite Nat.add_0_r, format_dep_key, columnClassName_at.
      repeat split. exact Hrows.
    + destruct (Hbuilt j table Hj) as (e & He & Hkey & Hclass & Hitems).
      exists e. rewrite Nat.add_succ_r. simpl. repeat split; assumption.
Qed.

Lemma pushTables_throw_iff :
  forall entries index acc,
    DeploymentsTableView.pushTables getPipelineText index entries acc
    = TypeError
    <-> exists entry,
          In entry entries
          /\ DeploymentsTable._getDeploymentReplicaSetItems getPipelineText
               (deployment entry) (replicaSets entry) = TypeError.
Proof.
  induction entries as [| entry rest IH]; intros index acc; simpl.
  - split; [discriminate | intros (e & [] & _)].
  - destruct (DeploymentsTable._getDeploymentReplicaSetItems getPipelineText
                (deployment entry) (replicaSets entry)) as [rows |] eqn:Hrows.
    + rewrite IH. split.
      * intros (e & Hin & He). exists e. split; [now right | exact He].
      * intros (e & [<- | Hin] & He); [congruence |]. now exists e.
    + split; [| reflexivity]. intros _. exists entry. split; [now left |].
      exact Hrows.
Qed.

End ViewFacts.

Section RenderFacts.
Variable getPipelineText : option (list (string * string)) -> string.
Variable filterByName : string -> option string -> bool.

Lemma render_none :
  forall state props c,
    DeploymentsTableView.filteredDeployments filterByName state props = [] ->
    DeploymentsTableView.render getPipelineText filterByName state props c
    = (Ok None, c).
Proof.
  intros state props c Hnone. unfold DeploymentsTableView.render.
  now rewrite Hnone.
Qed.

Lemma render_some :
  forall state props c,
    DeploymentsTableView.filteredDeployments filterByName state props <> [] ->
    fst (DeploymentsTableView.render getPipelineText filterByName state props
           c)
    = match DeploymentsTableView.pushTables getPipelineText 0
              (fst (DeploymentsTable._generateDeploymentReplicaSetMap
                      (DeploymentsTableView.filteredDeployments filterByName
                         state props)
                      (DeploymentsTable.replicaSetList state) c)) [] with
      | Ok tables => Ok (Some tables)
      | TypeError => TypeError
      end.
Proof.
  intros state props c Hsome.
  unfold DeploymentsTableView.render,
    DeploymentsTableView._getDeploymentListView.
  destruct (DeploymentsTableView.filteredDeployments filterByName state props)
    as [| d rest] eqn:Hf; [contradiction |].
  cbn [List.length Nat.ltb Nat.leb]. unfold bind.
  destruct (DeploymentsTable._generateDeploymentReplicaSetMap (d :: rest)
              (DeploymentsTable.replicaSetList state) c) as [entries c'].
  reflexivity.
Qed.

End RenderFacts.

(** X12: the table renders nothing exactly when no deployment of the
    state passes the name filter, in particular while the deployment list
    is not there; the clock is then not read. *)
Theorem render_null_iff :
  forall (getPipelineText : option (list (string * string)) -> string)
         (filterByName : string -> option string -> bool)
         (state : DeploymentsTable.IDeploymentsTableState)
         (props : DeploymentsTableView.IDeploymentsTableProperties)
         (c : Clock),
    (fst (DeploymentsTableView.render getPipelineText filterByName state
            props c) = Ok None
     <-> DeploymentsTableView.filteredDeployments filterByName state props
         = [])
    /\ (DeploymentsTableView.filteredDeployments filterByName state props
        = [] ->
        snd (DeploymentsTableView.render getPipelineText filterByName state
               props c) = c)
    /\ (DeploymentsTable.deploymentList state = None ->
        DeploymentsTableView.render getPipelineText filterByName state props c
        = (Ok None, c)).
Proof.
  intros gp fbn state props c. split; [| split].
  - split.
    + intros Hnull.
      destruct (DeploymentsTableView.filteredDeployments fbn state props)
        as [| d rest] eqn:Hf; [reflexivity |].
      rewrite (render_some gp fbn state props c) in Hnull
        by (rewrite Hf; discriminate).
      destruct (DeploymentsTableView.pushTables _ _ _ _); discriminate.
    + intros Hnone. now rewrite render_none.
  - intros Hnone. now rewrite render_none.
  - intros Hnone. apply render_none.
    unfold DeploymentsTableView.filteredDeployments. now rewrite Hnone.
Qed.

Lemma render_null_iff_witness :
  DeploymentsTableView.render samplePipelineText sampleFilterByName
    DeploymentsTableView.initialState (DeploymentsTableView.mkTableProps None)
    jumpingClock
  = (Ok None, jumpingClock).
Proof.
  apply (render_null_iff samplePipelineText sampleFilterByName
           DeploymentsTableView.initialState
           (DeploymentsTableView.mkTableProps None) jumpingClock).
  reflexivity.
Defined.

(** X13: when the table renders, there is one table per deployment that
    passes the name filter, in the order of the deployment list; the table
    at index i has the key "dep-i", the class of a first or of a later
    table, and the rows built from a rearrangement of the replica sets
    associated with its deployment. *)
Theorem render_tables :
  forall (getPipelineText : option (list (string * string)) -> string)
         (filterByName : string -> option string -> bool)
         (state : DeploymentsTable.IDeploymentsTableState)
         (props : DeploymentsTableView.IDeploymentsTableProperties)
         (c : Clock) (tables : list DeploymentsTableView.BaseKubeTable),
    fst (DeploymentsTableView.render getPipelineText filterByName state props
           c) = Ok (Some tables) ->
    map DeploymentsTableView.headingOf tables
    = DeploymentsTableView.filteredDeployments filterByName state props
    /\ forall index table,
         nth_error tables index = Some table ->
         DeploymentsTableView.key table
         = "dep-" ++ numberToString (Z.of_nat index)
         /\ DeploymentsTableView.className table
            = (if (index =? 0)%nat then "list-content depth-16"
               else "list-content depth-16 replica-with-pod-list")
         /\ exists replicaSets,
              Permutation
                (DeploymentsTable.filteredReplicas
                   (DeploymentsTableView.headingOf table)
                   (DeploymentsTable.replicaSetList state))
                replicaSets
              /\ DeploymentsTable._getDeploymentReplicaSetItems
                   getPipelineText (DeploymentsTableView.headingOf table)
                   replicaSets
                 = Ok (DeploymentsTableView.items table).
Proof.
  intros gp fbn state props c tables Hrender.
  destruct (DeploymentsTableView.filteredDeployments fbn state props)
    as [| d rest] eqn:Hf.
  { rewrite render_none in Hrender by assumption. discriminate. }
  rewrite (render_some gp fbn state props c) in Hrender
    by (rewrite Hf; discriminate).
  rewrite Hf in Hrender.
  set (entries :=
         fst (DeploymentsTable._generateDeploymentReplicaSetMap (d :: rest)
                (DeploymentsTable.replicaSetList state) c)) in *.
  destruct (DeploymentsTableView.pushTables gp 0 entries []) as [ts |] eqn:Hts;
    [| discriminate].
  inversion Hrender; subst ts; clear Hrender.
  destruct (pushTables_tables gp _ _ _ _ Hts)
    as (built & Htables & Hheads & Hbuilt).
  simpl in Htables; subst built.
  split.
  - rewrite Hheads. unfold entries,
      DeploymentsTable._generateDeploymentReplicaSetMap.
    now rewrite pushEntries_deployments.
  - intros index table Htable.
    destruct (Hbuilt index table Htable)
      as (entry & Hentry & Hkey & Hclass & Hitems).
    simpl in Hkey, Hclass.
    split; [exact Hkey |]. split; [exact Hclass |].
    assert (Hhead : DeploymentsTableView.headingOf table = deployment entry).
    { pose proof (map_nth_error DeploymentsTableView.headingOf _ _ Htable)
        as H1.
      pose proof (map_nth_error deployment _ _ Hentry) as H2.
      rewrite Hheads in H1. congruence. }
    exists (replicaSets entry). rewrite Hhead. split; [| exact Hitems].
    apply nth_error_In in Hentry.
    apply pushEntries_In in Hentry.
    destruct Hentry as [[] | (c' & _ & Hrs)].
    rewrite Hrs. apply sort_Permutation.
Qed.

Lemma render_tables_witness :
  map DeploymentsTableView.headingOf
      [DeploymentsTableView.mkTable "dep-0" "list-content depth-16" d1 []]
  = [d1].
Proof.
  apply (render_tables samplePipelineText sampleFilterByName
           {| DeploymentsTable.deploymentList := Some (mkDeploymentList [d1]);
              DeploymentsTable.replicaSetList := None |}
           (DeploymentsTableView.mkTableProps (Some "d1")) jumpingClock).
  reflexivity.
Defined.

(** X14: rendering throws exactly when a deployment that passes the
    name filter has an associated replica set without any container. *)
Theorem render_throws_iff :
  forall (getPipelineText : option (list (string * string)) -> string)
         (filterByName : string -> option string -> bool)
         (state : DeploymentsTable.IDeploymentsTableState)
         (props : DeploymentsTableView.IDeploymentsTableProperties)
         (c : Clock),
    fst (DeploymentsTableView.render getPipelineText filterByName state props
           c) = TypeError
    <-> exists deployment replica,
          In deployment
             (DeploymentsTableView.filteredDeployments filterByName state
                props)
          /\ In replica
                (DeploymentsTable.filteredReplicas deployment
                   (DeploymentsTable.replicaSetList state))
          /\ containers (template_spec (template (rs_spec replica))) = [].
Proof.
  intros gp fbn state props c.
  destruct (DeploymentsTableView.filteredDeployments fbn state props)
    as [| d0 rest] eqn:Hf.
  { rewrite render_none by assumption. simpl. split; [discriminate |].
    intros (d & r & [] & _). }
  rewrite (render_some gp fbn state props c) by (rewrite Hf; discriminate).
  rewrite Hf.
  set (filtered := d0 :: rest) in *.
  set (rsl := DeploymentsTable.replicaSetList state) in *.
  set (entries :=
         fst (DeploymentsTable._generateDeploymentReplicaSetMap filtered rsl
                c)) in *.
  assert (Hdeps : map deployment entries = filtered).
  { unfold entries, DeploymentsTable._generateDeploymentReplicaSetMap.
    now rewrite pushEntries_deployments. }
  assert (Hperm : forall entry,
             In entry entries ->
             Permutation
               (DeploymentsTable.filteredReplicas (deployment entry) rsl)
               (replicaSets entry)).
  { intros entry Hin. apply pushEntries_In in Hin.
    destruct Hin as [[] | (c' & _ & Hrs)].
    rewrite Hrs. apply sort_Permutation. }
  transitivity (DeploymentsTableView.pushTables gp 0 entries [] = TypeError).
  { destruct (DeploymentsTableView.pushTables gp 0 entries []);
      split; intros H; try discriminate; reflexivity. }
  rewrite pushTables_throw_iff. split.
  - intros (entry & Hin & Hthrow).
    apply items_throw_iff in Hthrow. destruct Hthrow as (r & Hr & Hnone).
    exists (deployment entry), r. split; [| split; [| exact Hnone]].
    + rewrite <- Hdeps. now apply in_map.
    + eapply Permutation_in;
        [apply Permutation_sym; apply Hperm; exact Hin | exact Hr].
  - intros (d & r & Hd & Hr & Hnone).
    rewrite <- Hdeps in Hd. apply in_map_iff in Hd.
    destruct Hd as (entry & <- & Hin).
    exists entry. split; [exact Hin |].
    apply items_throw_iff. exists r. split; [| exact Hnone].
    eapply Permutation_in; [apply Hperm; exact Hin | exact Hr].
Qed.

Lemma render_throws_iff_witness :
  fst (DeploymentsTableView.render samplePipelineText sampleFilterByName
         {| DeploymentsTable.deploymentList := Some (mkDeploymentList [d1]);
            DeploymentsTable.replicaSetList :=
              Some (mkReplicaSetList [rs1; rsNoContainer]) |}
         (DeploymentsTableView.mkTableProps None) jumpingClock)
  = TypeError.
Proof.
  apply (proj2 (render_throws_iff samplePipelineText sampleFilterByName _ _
                  jumpingClock)).
  exists d1, rsNoContainer. split; [simpl; now left |].
  split; [simpl; right; left; reflexivity | reflexivity].
Defined.

(** ** The pivot over its history of store events *)

Lemma run_app :
  forall state events e,
    run state (events ++ [e]) = dispatch (run state events) e.
Proof.
  intros state events e. unfold run. now rewrite fold_left_app.
Qed.

(** X15: from a size that is not positive, the size after a history of
    store events is the size reported by the first event that reports
    workloads, and is unchanged when no event does; from the initial state
    it is then zero. *)
Theorem workloadResourceSize_first_report :
  forall (state : IWorkloadsPivotState)
         (events : list (WorkloadsEvents * WorkloadsStore)),
    workloadResourceSize state <= 0 ->
    workloadResourceSize (run state events)
    = match find reportsWorkloads events with
      | Some e => getWorkloadSize (snd e)
      | None => workloadResourceSize state
      end.
Proof.
  intros state events. revert state.
  induction events as [| [ev store] events IH]; intros state Hle.
  - reflexivity.
  - change (run state ((ev, store) :: events))
      with (run (dispatch state (ev, store)) events).
    simpl find. unfold reportsWorkloads at 1. simpl fst. simpl snd.
    destruct ev; unfold dispatch; simpl fst; simpl snd; cbv iota.
    + rewrite IH by (simpl; exact Hle). reflexivity.
    + unfold _onDataFound.
      destruct (Z.leb_spec (workloadResourceSize state) 0) as [_ | Hgt];
        [| lia].
      destruct (Z.gtb_spec (getWorkloadSize store) 0) as [Hpos | Hnone];
        cbn [andb].
      * rewrite run_positive by (simpl; lia). reflexivity.
      * apply IH. exact Hle.
Qed.

Lemma workloadResourceSize_first_report_witness :
  workloadResourceSize
    (run initialState
         [(WorkloadsFoundEvent, mkStore None 0);
          (WorkloadPodsFetchedEvent, mkStore None 9);
          (WorkloadsFoundEvent, mkStore None 4);
          (WorkloadsFoundEvent, mkStore None 7)]) = 4.
Proof.
  apply (workloadResourceSize_first_report initialState). simpl. lia.
Defined.

(** X16: the orphan pods of the state after a history of store events
    are those the store held at the last [WorkloadPodsFetchedEvent] (none
    when the store had no list), and are unchanged when there was no such
    event; [WorkloadsFoundEvent] never touches them. *)
Theorem orphanPodsList_last_fetch :
  forall (state : IWorkloadsPivotState)
         (events : list (WorkloadsEvents * WorkloadsStore)),
    orphanPodsList (run state events)
    = match find isPodsFetched (rev events) with
      | Some e => storeOrphanPods (snd e)
      | None => orphanPodsList state
      end.
Proof.
  intros state events.
  induction events as [| [ev store] events IH] using rev_ind.
  - reflexivity.
  - rewrite run_app, rev_app_distr. simpl rev. simpl app. simpl find.
    unfold isPodsFetched at 1. simpl fst. simpl snd.
    destruct ev; unfold dispatch; simpl fst; simpl snd.
    + reflexivity.
    + rewrite <- IH. unfold _onDataFound.
      destruct (_ && _); reflexivity.
Qed.

(** X17: the content holds at most one table per resource type, in the
    order Deployments, DaemonSets, StatefulSets, Pods. *)
Theorem getContent_order :
  forall (learn nowl : string) (state : IWorkloadsPivotState)
         (props : IWorkloadsPivotProps) (store : WorkloadsStore),
    let content := _getContent learn nowl state props store in
    map tableType (contentElements content)
    = filter (fun resourceType => rendersTable resourceType content)
             [Deployments; DaemonSets; StatefulSets; Pods].
Proof.
  intros learn nowl state props store content.
  unfold content, _getContent.
  destruct (workloadResourceSize state =? 0)%Z; [reflexivity |].
  destruct (_showComponent props Deployments),
           (_showComponent props DaemonSets),
           (_showComponent props StatefulSets),
           (_showComponent props Pods),
           (0 <? List.length (orphanPodsList state))%nat; reflexivity.
Qed.

Lemma format_prefix_key :
  forall resourceType ns,
    match resourceType with
    | Deployments => format "dc-{0}" [ns]
    | DaemonSets => format "ds-list-{0}" [ns]
    | StatefulSets => format "sts-list-{0}" [ns]
    | Pods => format "orphan-pods-list-{0}" [ns]
    end
    = keyPrefix resourceType ++ ns.
Proof.
  intros [] ns; unfold format; simpl; now rewrite append_nil_r.
Qed.

Lemma contentElements_among :
  forall (learn nowl : string) state props store element,
    In element (contentElements (_getContent learn nowl state props store)) ->
    element = _getDeployments props
    \/ element = _getDaemonSetsComponent props
    \/ element = _getStatefulSetsComponent props
    \/ element = getOrphanPods props store.
Proof.
  intros learn nowl state props store element.
  unfold _getContent.
  destruct (workloadResourceSize state =? 0)%Z; [intros [] |].
  unfold contentElements, renderIf.
  destruct (_showComponent props Deployments),
           (_showComponent props DaemonSets),
           (_showComponent props StatefulSets),
           (_showComponent props Pods),
           (0 <? List.length (orphanPodsList state))%nat;
    cbn [andb rendered In]; intuition auto.
Qed.

(** X18: every table of the content gets the name filter of the filter
    state and a key made of the prefix of its type and the namespace (the
    prefix alone without a namespace); the Pods table gets the orphan pods
    the store holds at the time of rendering, not those of the state. *)
Theorem getContent_elements :
  forall (learn nowl : string) (state : IWorkloadsPivotState)
         (props : IWorkloadsPivotProps) (store : WorkloadsStore)
         (element : Element),
    In element
       (contentElements (_getContent learn nowl state props store)) ->
    elementNameFilter element = _getNameFilterValue props
    /\ elementKey element
       = keyPrefix (tableType element) ++ namespaceOrEmpty props
    /\ forall key pods nameFilter,
         element = PodsTable key pods nameFilter ->
         pods = storeOrphanPods store.
Proof.
  intros learn nowl state props store element Hin.
  apply contentElements_among in Hin.
  destruct Hin as [-> | [-> | [-> | ->]]];
    (split; [reflexivity |]).
  - split; [exact (format_prefix_key Deployments _) | discriminate].
  - split; [exact (format_prefix_key DaemonSets _) | discriminate].
  - split; [exact (format_prefix_key StatefulSets _) | discriminate].
  - split; [exact (format_prefix_key Pods _) |].
    intros key pods nameFilter Heq.
    unfold getOrphanPods in Heq. now inversion Heq.
Qed.

Lemma getContent_elements_witness :
  elementKey (PodsTable "orphan-pods-list-ns" [] None)
  = "orphan-pods-list-ns".
Proof.
  apply (getContent_elements "Learn more" "No workloads"
           (mkState 3 [mkPod (sampleMeta "p" "ns" "p1" None None)])
           (sampleProps []) sampleStore
           (PodsTable "orphan-pods-list-ns" [] None)).
  simpl. right. right. right. left. reflexivity.
Defined.

(** X19: when the filter has no state, or its state has no entry for the
    type, every component is shown; and when it has no state or no entry
    for the name, the tables get no name filter. *)
Theorem filter_entries_missing :
  forall (props : IWorkloadsPivotProps),
    ((filterState props = None
      \/ exists fs, filterState props = Some fs /\ atTypeKey fs = None) ->
     forall resourceType, _showComponent props resourceType = true)
    /\ ((filterState props = None
         \/ exists fs, filterState props = Some fs /\ atNameKey fs = None) ->
        _getNameFilterValue props = None).
Proof.
  intros props. split.
  - intros H resourceType. unfold _showComponent, _getTypeFilterValue.
    destruct H as [-> | (fs & -> & ->)]; reflexivity.
  - intros H. unfold _getNameFilterValue.
    destruct H as [-> | (fs & -> & ->)]; reflexivity.
Qed.

Lemma filter_entries_missing_witness :
  _showComponent (mkProps None None) Pods = true.
Proof.
  apply (proj1 (filter_entries_missing (mkProps None None))).
  now left.
Defined.

(** ** The tabs of the pods panel *)

(** X20: with tab keys that differ from one another, the logs and YAML
    keys not being empty, the content agrees with the tab the bar shows as
    selected: the details view under the details tab, which is the one
    shown at first, and the two placeholders exactly under the logs and
    the YAML tabs. *)
Theorem tab_content_agrees :
  forall (PodsDetailsKey PodsLogsKey PodsYamlKey : string)
         (state : PodsRightPanel.IPodsRightPanelState) (pod : V1Pod),
    PodsDetailsKey <> PodsLogsKey ->
    PodsDetailsKey <> PodsYamlKey ->
    PodsLogsKey <> PodsYamlKey ->
    PodsLogsKey <> "" ->
    PodsYamlKey <> "" ->
    let shown := PodsRightPanel.selectedTabId PodsDetailsKey state in
    let content :=
      PodsRightPanel._getTabContent PodsLogsKey PodsYamlKey state pod in
    (shown = PodsDetailsKey -> content = PodsRightPanel.PodDetailsView pod)
    /\ (shown = PodsLogsKey
        <-> content = PodsRightPanel.Span "Pods Logs View coming soon...")
    /\ (shown = PodsYamlKey
        <-> content = PodsRightPanel.Span "Pods YAML View coming soon...")
    /\ PodsRightPanel.selectedTabId PodsDetailsKey
         PodsRightPanel.initialState = PodsDetailsKey.
Proof.
  intros dk lk yk [tab] pod Hdl Hdy Hly Hl Hy shown content.
  unfold shown, content, PodsRightPanel.selectedTabId,
    PodsRightPanel._getTabContent, orElse.
  cbn [PodsRightPanel.selectedTab].
  destruct (String.eqb_spec tab "") as [He | He];
    destruct (String.eqb_spec tab lk) as [Hl' | Hl'];
    destruct (String.eqb_spec tab yk) as [Hy' | Hy'];
    try congruence;
    repeat split; intros; try reflexivity; try discriminate; try congruence.
Qed.

Lemma tab_content_agrees_witness :
  PodsRightPanel._getTabContent "pod-logs" "pod-yaml"
    PodsRightPanel.initialState (mkPod (sampleMeta "p" "ns" "p1" None None))
  = PodsRightPanel.PodDetailsView (mkPod (sampleMeta "p" "ns" "p1" None None)).
Proof.
  apply (tab_content_agrees "pod-details" "pod-logs" "pod-yaml"
           PodsRightPanel.initialState
           (mkPod (sampleMeta "p" "ns" "p1" None None)));
    try discriminate; reflexivity.
Defined.
